(** * Tuning curves and mutual information (pynapple/process/tuning_curves.py)

    A shallow embedding of [compute_1d_tuning_curves],
    [compute_2d_tuning_curves] and [compute_mutual_information_1d], with the
    numpy and pandas operations they call.

    Numbers.  A float64 is modelled by [np_float]: the IEEE special values
    (NaN, the two infinities, the two zeros) are kept as they are, and a
    finite value is the rational it stands for.  Every arithmetic
    operation rounds its exact result to the nearest binary64 value (ties
    to even, gradual underflow) and overflows to an infinity, as the
    hardware does.

    Exceptions.  A function that can raise returns a [result]; warnings
    (numpy's division by zero is one) are not exceptions and are left out.

    Collaborators.  The group is a dict or a [TsGroup]; the constructor
    that turns a dict into a [TsGroup] and [value_from], the Aligner, are
    parameters of the development.  [np.log2] on the positive finite
    values is a parameter as well. *)

From Stdlib Require Import String ZArith QArith Qabs Qround Bool List Lia.
Import ListNotations.

Local Open Scope string_scope.
Local Open Scope Z_scope.

(** ** Floating-point values *)

Module NpFloat.

Inductive np_float : Type :=
| Fin (q : Q)          (* a finite value; [Fin 0] is +0.0 *)
| NegZero              (* -0.0 *)
| Inf (neg : bool)     (* +inf ([false]) and -inf ([true]) *)
| NaN.

Definition Qzero (q : Q) : bool := Qeq_bool q 0.
Definition Qneg (q : Q) : bool := (Qnum q <? 0)%Z.

(** The sign bit. *)
Definition signbit (x : np_float) : bool :=
  match x with
  | Fin q => Qneg q
  | NegZero => true
  | Inf s => s
  | NaN => false
  end.

Definition is_zero (x : np_float) : bool :=
  match x with
  | Fin q => Qzero q
  | NegZero => true
  | _ => false
  end.

(** [np.isnan], [np.isinf]. *)
Definition isnan (x : np_float) : bool :=
  match x with NaN => true | _ => false end.

Definition isinf (x : np_float) : bool :=
  match x with Inf _ => true | _ => false end.

Definition is_finite (x : np_float) : bool :=
  match x with Fin _ | NegZero => true | _ => false end.

(** The rational value of a finite float (0 for the others). *)
Definition Qval (x : np_float) : Q :=
  match x with Fin q => q | _ => 0%Q end.

Definition zero_of (s : bool) : np_float := if s then NegZero else Fin 0.

(** *** Rounding to binary64 *)

(** 2^e. *)
Definition pow2 (e : Z) : Q :=
  if 0 <=? e then inject_Z (2 ^ e) else / inject_Z (2 ^ (- e)).

(** The binary exponent of a positive rational: the [e] with
    2^e <= q < 2^(e+1). *)
Definition exponent (q : Q) : Z :=
  let k := Z.log2 (Qnum q) - Z.log2 (Zpos (Qden q)) in
  if Qle_bool (pow2 k) q then k else k - 1.

(** The nearest integer, the even one of two that are as near. *)
Definition nearest_even (q : Q) : Z :=
  let f := Qfloor q in
  match (q - inject_Z f ?= 1 # 2)%Q with
  | Lt => f
  | Gt => f + 1
  | Eq => if Z.even f then f else f + 1
  end.

(** The nearest multiple of the unit in the last place: 53 significant
    bits, and 2^-1074 below the normal range. *)
Definition round_abs (a : Q) : Q :=
  let e := Z.max (exponent a) (-1022) in
  let ulp := pow2 (e - 52) in
  (inject_Z (nearest_even (a / ulp)) * ulp)%Q.

Definition round (q : Q) : Q :=
  let q := Qred q in
  let r := round_abs (Qabs q) in
  Qred (if Qneg q then - r else r).

(** A rounded magnitude of 2^1024 or more is out of range. *)
Definition overflows (r : Q) : bool := Qle_bool (pow2 1024) (Qabs r).

(** The float of an exact result [q]: rounded, an infinity on overflow;
    an exact zero has the sign bit [s], a result that rounds to zero keeps
    its own sign. *)
Definition mk (q : Q) (s : bool) : np_float :=
  if Qzero q then zero_of s
  else
    let r := round q in
    if overflows r then Inf (Qneg q)
    else if Qzero r then zero_of (Qneg q)
    else Fin r.

(** The float of an int64, which rounds above 2^53 and never overflows. *)
Definition of_Z (z : Z) : np_float := Fin (round (inject_Z z)).


Definition neg (x : np_float) : np_float :=
  match x with
  | Fin q => if Qzero q then NegZero else Fin (Qred (- q))
  | NegZero => Fin 0
  | Inf s => Inf (negb s)
  | NaN => NaN
  end.

Definition add (x y : np_float) : np_float :=
  match x, y with
  | NaN, _ | _, NaN => NaN
  | Inf s, Inf t => if Bool.eqb s t then Inf s else NaN
  | Inf s, _ => Inf s
  | _, Inf t => Inf t
  | _, _ => mk (Qval x + Qval y) (signbit x && signbit y)
  end.

Definition sub (x y : np_float) : np_float := add x (neg y).

Definition mul (x y : np_float) : np_float :=
  match x, y with
  | NaN, _ | _, NaN => NaN
  | Inf s, _ => if is_zero y then NaN else Inf (xorb s (signbit y))
  | _, Inf t => if is_zero x then NaN else Inf (xorb (signbit x) t)
  | _, _ => mk (Qval x * Qval y) (xorb (signbit x) (signbit y))
  end.

Definition div (x y : np_float) : np_float :=
  match x, y with
  | NaN, _ | _, NaN => NaN
  | Inf _, Inf _ => NaN
  | Inf s, _ => Inf (xorb s (signbit y))
  | _, Inf t => zero_of (xorb (signbit x) t)
  | _, _ =>
      if is_zero y
      then (if is_zero x then NaN else Inf (xorb (signbit x) (signbit y)))
      else mk (Qval x / Qval y) (xorb (signbit x) (signbit y))
  end.

(** IEEE comparisons: false as soon as one side is NaN; the zeros are
    equal. *)
Definition ltb (x y : np_float) : bool :=
  match x, y with
  | NaN, _ | _, NaN => false
  | Inf true, Inf true => false
  | Inf true, _ => true
  | _, Inf true => false
  | Inf false, _ => false
  | _, Inf false => true
  | _, _ => match Qcompare (Qval x) (Qval y) with Lt => true | _ => false end
  end.

Definition eqb (x y : np_float) : bool :=
  match x, y with
  | NaN, _ | _, NaN => false
  | Inf s, Inf t => Bool.eqb s t
  | Inf _, _ | _, Inf _ => false
  | _, _ => Qeq_bool (Qval x) (Qval y)
  end.

Definition gtb (x y : np_float) : bool := ltb y x.
Definition leb (x y : np_float) : bool := ltb x y || eqb x y.

(** The order numpy sorts and searches floats with: NaN comes after every
    other value. *)
Definition sort_lt (x y : np_float) : bool :=
  ltb x y || (isnan y && negb (isnan x)).

End NpFloat.
Export NpFloat.

Declare Scope np_scope.
Delimit Scope np_scope with np.
Infix "+" := add : np_scope.
Infix "-" := sub : np_scope.
Infix "*" := mul : np_scope.
Infix "/" := div : np_scope.

(** ** Python exceptions *)

Inductive py_error : Type :=
| RuntimeError (msg : string)
| ValueError (msg : string)
| IndexError (msg : string)
| KeyError (msg : string).

Inductive result (A : Type) : Type :=
| Ok (a : A)
| Raise (e : py_error).
Arguments Ok {A} a.
Arguments Raise {A} e.

Definition bind {A B : Type} (r : result A) (k : A -> result B) : result B :=
  match r with
  | Ok a => k a
  | Raise e => Raise e
  end.

Notation "x <- c ;; k" := (bind c (fun x => k))
  (at level 61, c at next level, right associativity).

(** A [for] loop whose body may raise: the first exception ends it. *)
Fixpoint for_each {A S : Type} (xs : list A) (s : S)
    (body : S -> A -> result S) : result S :=
  match xs with
  | [] => Ok s
  | x :: xs' => s' <- body s x ;; for_each xs' s' body
  end.

(** ** numpy *)

Module Np.

Definition map2 {A B C : Type} (f : A -> B -> C) (xs : list A) (ys : list B)
  : list C :=
  map (fun p => f (fst p) (snd p)) (combine xs ys).

Definition count {A : Type} (p : A -> bool) (xs : list A) : Z :=
  Z.of_nat (List.length (filter p xs)).

(** [a[0:-1]], [a[1:]] and [a[-1:]]. *)
Definition init {A : Type} (a : list A) : list A := removelast a.
Definition rest {A : Type} (a : list A) : list A := tl a.
Fixpoint last1 {A : Type} (a : list A) : list A :=
  match a with
  | [] => []
  | [x] => [x]
  | _ :: a' => last1 a'
  end.

(** [np.diff] of a float array and of an integer array. *)
Definition diff (a : list np_float) : list np_float :=
  map2 sub (rest a) (init a).

Definition diffZ (a : list Z) : list Z :=
  map2 Z.sub (rest a) (init a).

(** [np.sum] along the rows: 0.0 for an empty array, otherwise the
    elements added one after the other, from the first one on. *)
Definition sum (a : list np_float) : np_float :=
  match a with
  | [] => Fin 0
  | x :: xs => fold_left add xs x
  end.

Definition sumZ (a : list Z) : Z := fold_left Z.add a 0.

(** [np.arange(0, num)] as floats. *)
Definition arange (num : Z) : list np_float :=
  map (fun i => of_Z (Z.of_nat i)) (seq 0 (Z.to_nat num)).

(** [y[-1] = v]. *)
Definition set_last (y : list np_float) (v : np_float) : list np_float :=
  match y with
  | [] => []
  | _ => init y ++ [v]
  end.

(** [np.linspace(start, stop, num)] with [endpoint=True]. *)
Definition linspace (start stop : np_float) (num : Z)
  : result (list np_float) :=
  if num <? 0
  then Raise (ValueError "Number of samples must be non-negative.")
  else
    let dv := num - 1 in
    let y := arange num in
    let delta := (stop - start)%np in
    let y :=
      if 0 <? dv then
        let step := (delta / of_Z dv)%np in
        if eqb step (Fin 0)
        then map (fun v => (v / of_Z dv * delta)%np) y
        else map (fun v => (v * step)%np) y
      else map (fun v => (v * delta)%np) y in
    let y := map (fun v => (v + start)%np) y in
    Ok (if 1 <? num then set_last y stop else y).

(** [np.any(bin_edges[:-1] > bin_edges[1:])]. *)
Definition not_monotonic (bins : list np_float) : bool :=
  existsb (fun p => gtb (fst p) (snd p)) (combine (init bins) (rest bins)).

(** [a.searchsorted(v, 'left')] and [a.searchsorted(v, 'right')] for a
    sorted [a]: the number of elements before, and not after, [v]. *)
Definition searchsorted_left (a : list np_float) (v : np_float) : Z :=
  count (fun x => sort_lt x v) a.

Definition searchsorted_right (a : list np_float) (v : np_float) : Z :=
  count (fun x => negb (sort_lt v x)) a.

(** [np.histogram(a, bins)] for an array [bins] of edges: the counts are
    the differences of the cumulative counts at the edges; every bin is
    half-open but the last, which is closed. *)
Definition cumulative (a bins : list np_float) : list Z :=
  map (searchsorted_left a) (init bins)
  ++ map (searchsorted_right a) (last1 bins).

Definition histogram (a bins : list np_float) : result (list Z) :=
  if not_monotonic bins
  then Raise (ValueError "`bins` must increase monotonically, when an array")
  else Ok (diffZ (cumulative a bins)).

(** [np.histogram2d(x, y, [xedges, yedges])].  Each sample gets, per
    dimension, the number of edges not after it, one less when it sits on
    the last edge; cell (i, j) counts the samples with numbers (i+1,
    j+1).  The counts come back as floats. *)
Definition bin_number (edges : list np_float) (v : np_float)
  : result Z :=
  match last1 edges with
  | [] => Raise (IndexError "index -1 is out of bounds")
  | e :: _ =>
      Ok (searchsorted_right edges v - (if eqb v e then 1 else 0))
  end.

Fixpoint bin_numbers (edges : list np_float) (vs : list np_float)
  : result (list Z) :=
  match vs with
  | [] => match last1 edges with
          | [] => Raise (IndexError "index -1 is out of bounds")
          | _ => Ok []
          end
  | v :: vs' =>
      n <- bin_number edges v ;;
      ns <- bin_numbers edges vs' ;;
      Ok (n :: ns)
  end.

Definition histogram2d (x y : list np_float) (xedges yedges : list np_float)
  : result (list (list np_float)) :=
  if negb (Nat.eqb (List.length x) (List.length y))
  then Raise (ValueError "x and y must have the same length.")
  else if not_monotonic xedges
  then Raise (ValueError "`bins[0]` must be monotonically increasing when an array")
  else if not_monotonic yedges
  then Raise (ValueError "`bins[1]` must be monotonically increasing when an array")
  else
    nx <- bin_numbers xedges x ;;
    ny <- bin_numbers yedges y ;;
    let nxy := combine nx ny in
    Ok (map (fun i =>
          map (fun j =>
            of_Z (count (fun p => (fst p =? Z.of_nat i) && (snd p =? Z.of_nat j)) nxy))
            (seq 1 (List.length yedges - 1)))
          (seq 1 (List.length xedges - 1))).

End Np.

(** ** Containers of the core package *)

(** A group identifier: an integer or a string. *)
Inductive key : Type :=
| KInt (z : Z)
| KStr (s : string).

Definition key_eqb (a b : key) : bool :=
  match a, b with
  | KInt x, KInt y => x =? y
  | KStr s, KStr t => String.eqb s t
  | _, _ => false
  end.

(** [Tsd]: a series of timestamped values with its sampling rate. *)
Record Tsd : Type := mkTsd {
  samples : list (Q * np_float);
  rate : np_float
}.

Definition values (f : Tsd) : list np_float := map snd (samples f).

(** [TsdFrame]: named channels on shared timestamps. *)
Record TsdFrame : Type := mkTsdFrame {
  channels : list (string * Tsd);
  frame_rate : np_float
}.

(** [feature.columns] and [feature[c]]. *)
Definition columns (f : TsdFrame) : list string := map fst (channels f).

Fixpoint lookup {K V : Type} (eq : K -> K -> bool) (k : K)
    (d : list (K * V)) : option V :=
  match d with
  | [] => None
  | (k', v) :: d' => if eq k k' then Some v else lookup eq k d'
  end.

Definition empty_Tsd : Tsd := mkTsd [] NaN.

Definition channel (f : TsdFrame) (c : string) : Tsd :=
  match lookup String.eqb c (channels f) with
  | Some t => t
  | None => empty_Tsd
  end.

(** [IntervalSet]: a list of intervals (start, end). *)
Definition IntervalSet : Type := list (Q * Q).

(** Modelled from the spec: [Tsd.restrict], which is not in this file.  It
    keeps the samples whose timestamp lies in one of the intervals
    [start, end) of the interval set. *)
Definition in_interval (t : Q) (i : Q * Q) : bool :=
  Qle_bool (fst i) t && negb (Qle_bool (snd i) t).

Definition restrict (f : Tsd) (ep : IntervalSet) : Tsd :=
  mkTsd (filter (fun s => existsb (in_interval (fst s)) ep) (samples f))
        (rate f).

(** Modelled from the spec: the feature's min and max operations
    ([np.min(feature)] is answered by the series itself).  NaN samples are
    skipped; with nothing left the answer is NaN. *)
Definition pick (better : np_float -> np_float -> bool)
    (vs : list np_float) : np_float :=
  match filter (fun v => negb (isnan v)) vs with
  | [] => NaN
  | v :: vs' => fold_left (fun m x => if better x m then x else m) vs' v
  end.

Definition np_min (f : Tsd) : np_float := pick ltb (values f).
Definition np_max (f : Tsd) : np_float := pick gtb (values f).

(** [pandas.DataFrame]: an index and named columns, in order. *)
Record DataFrame : Type := mkDataFrame {
  index : list np_float;
  frame : list (key * list np_float)
}.

(** [pd.DataFrame(index = idx, columns = cols)]: every cell is NaN. *)
Definition new_DataFrame (idx : list np_float) (cols : list key)
  : DataFrame :=
  mkDataFrame idx (map (fun k => (k, map (fun _ => NaN) idx)) cols).

(** [d[k] = v] on a dict or on the columns of a frame: an existing entry
    is replaced where it stands, a new one is appended. *)
Fixpoint dict_set {K V : Type} (eq : K -> K -> bool) (k : K) (v : V)
    (d : list (K * V)) : list (K * V) :=
  match d with
  | [] => [(k, v)]
  | (k', v') :: d' =>
      if eq k k' then (k, v) :: d' else (k', v') :: dict_set eq k v d'
  end.

(** [d[k]], which raises [KeyError] for a missing entry. *)
Definition getitem {K V : Type} (eq : K -> K -> bool) (d : list (K * V))
    (k : K) : result V :=
  match lookup eq k d with
  | Some v => Ok v
  | None => Raise (KeyError "missing key")
  end.

(** [a[i]] on a list or tuple. *)
Definition item {A : Type} (a : list A) (i : nat) : result A :=
  match nth_error a i with
  | Some v => Ok v
  | None => Raise (IndexError "index out of range")
  end.

Definition setitem (df : DataFrame) (k : key) (col : list np_float)
  : DataFrame :=
  mkDataFrame (index df) (dict_set key_eqb k col (frame df)).

(** [bins[0:-1] + np.diff(bins)/2]. *)
Definition centers (bins : list np_float) : list np_float :=
  Np.map2 add (Np.init bins) (map (fun d => (d / of_Z 2)%np) (Np.diff bins)).

(** [count[np.isnan(count)] = 0.0]. *)
Definition nan_to_zero (count : list np_float) : list np_float :=
  map (fun c => if isnan c then Fin 0 else c) count.

(** ** The tuning curves *)

Section TuningCurves.

(** The members of a group are series of some type; [value_from] is the
    Aligner of the core package, which gives the values of a member
    aligned on a feature over an interval set. *)
Variable series : Type.
Variable value_from : series -> Tsd -> IntervalSet -> list np_float.

(** [TsGroup]: identifiers and their series, in iteration order. *)
Definition TsGroup : Type := list (key * series).

Definition keys (group : TsGroup) : list key := map fst group.

(** [nap.TsGroup(group, time_support = ep)], the constructor of the core
    package that builds a group from a dict and a time support. *)
Variable new_TsGroup : list (key * series) -> IntervalSet -> TsGroup.

(** The [group] argument of the tuning-curve functions: a dict of series,
    in the order of its entries, or a [TsGroup]. *)
Inductive group_arg : Type :=
| Dict (d : list (key * series))
| Group (g : TsGroup).

(** [if type(group) is dict: group = nap.TsGroup(group, time_support = ep)]. *)
Definition as_TsGroup (group : group_arg) (ep : IntervalSet) : TsGroup :=
  match group with
  | Dict d => new_TsGroup d ep
  | Group g => g
  end.

(** [group.value_from(feature, ep)]: the aligned values of every member,
    under the same identifiers. *)
Definition group_value_from (group : TsGroup) (feature : Tsd)
    (ep : IntervalSet) : list (key * list np_float) :=
  map (fun m => (fst m, value_from (snd m) feature ep)) group.

(** The bin edges of the 1-D tuning curves and of the information
    function: [np.linspace] between the least and the greatest sample of
    the feature, or between [minmax[0]] and [minmax[1]]. *)
Definition edges (feature : Tsd) (nb_bins : Z)
    (minmax : option (list np_float)) : result (list np_float) :=
  match minmax with
  | None => Np.linspace (np_min feature) (np_max feature) nb_bins
  | Some mm =>
      lo <- item mm 0 ;;
      hi <- item mm 1 ;;
      Np.linspace lo hi nb_bins
  end.

(** One turn of the loop of [compute_1d_tuning_curves]. *)
Definition tuning_curve_1d (occupancy : list Z) (bins : list np_float)
    (r : np_float) (tuning_curves : DataFrame)
    (m : key * list np_float) : result DataFrame :=
  count <- Np.histogram (snd m) bins ;;
  let count := Np.map2 div (map of_Z count) (map of_Z occupancy) in
  let count := nan_to_zero count in
  let tuning_curves := setitem tuning_curves (fst m) count in
  Ok (setitem tuning_curves (fst m) (map (fun c => (c * r)%np) count)).

Definition compute_1d_tuning_curves (group : group_arg) (feature : Tsd)
    (ep : IntervalSet) (nb_bins : Z)
    (minmax : option (list np_float)) : result DataFrame :=
  let group := as_TsGroup group ep in
  let group_value := group_value_from group feature ep in
  bins <- edges feature nb_bins minmax ;;
  let idx := centers bins in
  let tuning_curves := new_DataFrame idx (keys group) in
  occupancy <- Np.histogram (values feature) bins ;;
  for_each group_value tuning_curves
    (tuning_curve_1d occupancy bins (rate feature)).


(** The loop over the channels of [compute_2d_tuning_curves]: the aligned
    values of the group and the bin edges, per channel. *)
Definition channel_edges (feature : TsdFrame) (nb_bins : Z)
    (minmax : option (list np_float)) (i : nat) (c : string)
  : result (list np_float) :=
  match minmax with
  | None =>
      Np.linspace (np_min (channel feature c)) (np_max (channel feature c))
        nb_bins
  | Some mm =>
      lo <- item mm (i + i mod 2) ;;
      hi <- item mm (i + 1 + i mod 2) ;;
      Np.linspace lo hi nb_bins
  end.

Definition per_channel : Type :=
  (list (string * list (key * list np_float))
   * list (string * list np_float))%type.

Definition channel_loop (group : TsGroup) (feature : TsdFrame)
    (ep : IntervalSet) (nb_bins : Z) (minmax : option (list np_float))
    (st : per_channel) (ic : nat * string) : result per_channel :=
  let c := snd ic in
  let groups_value :=
    dict_set String.eqb c (group_value_from group (channel feature c) ep)
      (fst st) in
  bins <- channel_edges feature nb_bins minmax (fst ic) c ;;
  Ok (groups_value, dict_set String.eqb c bins (snd st)).

(** [enumerate(cols)]. *)
Definition enumerate {A : Type} (xs : list A) : list (nat * A) :=
  combine (seq 0 (List.length xs)) xs.

(** One turn of the loop over the members. *)
Definition tuning_curve_2d
    (groups_value : list (string * list (key * list np_float)))
    (binsxy : list (string * list np_float)) (cols : list string)
    (occupancy : list (list np_float)) (r : np_float)
    (tc : list (key * list (list np_float))) (n : key)
  : result (list (key * list (list np_float))) :=
  c0 <- item cols 0 ;;
  c1 <- item cols 1 ;;
  g0 <- getitem String.eqb groups_value c0 ;;
  g1 <- getitem String.eqb groups_value c1 ;;
  x <- getitem key_eqb g0 n ;;
  y <- getitem key_eqb g1 n ;;
  b0 <- getitem String.eqb binsxy c0 ;;
  b1 <- getitem String.eqb binsxy c1 ;;
  count <- Np.histogram2d x y b0 b1 ;;
  let count := Np.map2 (Np.map2 div) count occupancy in
  Ok (dict_set key_eqb n (map (map (fun c => (c * r)%np)) count) tc).

Definition compute_2d_tuning_curves (group : group_arg)
    (feature : TsdFrame) (ep : IntervalSet) (nb_bins : Z)
    (minmax : option (list np_float))
  : result (list (key * list (list np_float)) * list (list np_float)) :=
  let group := as_TsGroup group ep in
  if negb (Nat.eqb (List.length (channels feature)) 2)
  then Raise (RuntimeError "Variable is not 2 dimensional.")
  else
    let cols := columns feature in
    st <- for_each (enumerate cols) ([], [])
            (channel_loop group feature ep nb_bins minmax) ;;
    let groups_value := fst st in
    let binsxy := snd st in
    c0 <- item cols 0 ;;
    c1 <- item cols 1 ;;
    b0 <- getitem String.eqb binsxy c0 ;;
    b1 <- getitem String.eqb binsxy c1 ;;
    occupancy <- Np.histogram2d (values (channel feature c0))
                   (values (channel feature c1)) b0 b1 ;;
    tc <- for_each (keys group) []
            (tuning_curve_2d groups_value binsxy cols occupancy
               (frame_rate feature)) ;;
    let xy := map (fun cb => centers (snd cb)) binsxy in
    Ok (tc, xy).

End TuningCurves.

Arguments TsGroup series : clear implicits.
Arguments group_arg series : clear implicits.
Arguments Dict {series} d.
Arguments Group {series} g.

(** ** Mutual information *)

(** The tuning curves given to [compute_mutual_information_1d]: a frame or
    a 2-D array, whose columns are the members. *)
Inductive tuning : Type :=
| TcFrame (df : DataFrame)
| TcArray (nrows : nat) (cols : list (list np_float)).

(** [tc.shape[0]]. *)
Definition shape0 (tc : tuning) : nat :=
  match tc with
  | TcFrame df => List.length (index df)
  | TcArray n _ => n
  end.

(** [tc.columns.values], or [np.arange(tc.shape[1])] for an array. *)
Definition labels (tc : tuning) : list key :=
  match tc with
  | TcFrame df => map fst (frame df)
  | TcArray _ cols => map (fun i => KInt (Z.of_nat i)) (seq 0 (List.length cols))
  end.

(** [fx], column by column. *)
Definition fx_columns (tc : tuning) : list (list np_float) :=
  match tc with
  | TcFrame df => map snd (frame df)
  | TcArray _ cols => cols
  end.

Section Information.

(** [np.log2] on the positive finite values. *)
Variable log2_pos : Q -> Q.

Definition log2 (x : np_float) : np_float :=
  match x with
  | NaN => NaN
  | Inf false => Inf false
  | Inf true => NaN
  | NegZero => Inf true
  | Fin q =>
      if Qzero q then Inf true
      else if Qneg q then NaN
      else mk (log2_pos q) false
  end.

(** [occupancy / occupancy.sum()]. *)
Definition normalize (occupancy : list Z) : list np_float :=
  map (fun c => (of_Z c / of_Z (Np.sumZ occupancy))%np) occupancy.

(** The occupancy of the information function. *)
Definition information_occupancy (tc : tuning) (feature : Tsd)
    (ep : IntervalSet) (minmax : option (list np_float))
  : result (list np_float) :=
  bins <- edges feature (Z.of_nat (shape0 tc) + 1) minmax ;;
  occupancy <- Np.histogram (values (restrict feature ep)) bins ;;
  Ok (normalize occupancy).

(** [fr], for one column: [np.sum(fx * occupancy, 0)]. *)
Definition mean_rate (occupancy col : list np_float) : np_float :=
  Np.sum (Np.map2 mul col occupancy).

(** [logfx], for one column, after [logfx[np.isinf(logfx)] = 0.0]. *)
Definition log_ratio (fr : np_float) (col : list np_float)
  : list np_float :=
  map (fun l => if isinf l then Fin 0 else l)
      (map log2 (map (fun v => (v / fr)%np) col)).

(** [np.sum(occupancy * fx * logfx, 0)], for one column. *)
Definition bits_per_second (occupancy col : list np_float) : np_float :=
  Np.sum (Np.map2 mul (Np.map2 mul occupancy col)
            (log_ratio (mean_rate occupancy col) col)).

Definition compute_mutual_information_1d (tc : tuning) (feature : Tsd)
    (ep : IntervalSet) (minmax : option (list np_float))
    (bitssecond : bool) : result (list (key * np_float)) :=
  let columns := labels tc in
  let fx := fx_columns tc in
  occupancy <- information_occupancy tc feature ep minmax ;;
  let fr := map (mean_rate occupancy) fx in
  let SI := map (bits_per_second occupancy) fx in
  if bitssecond
  then Ok (combine columns SI)
  else
    let SI := Np.map2 div SI fr in
    Ok (combine columns SI).

End Information.

(** ** Reading results *)

(** The cell of a frame at a column and a row. *)
Definition cell (df : DataFrame) (k : key) (i : nat) : option np_float :=
  match lookup key_eqb k (frame df) with
  | Some col => nth_error col i
  | None => None
  end.

(** The cell of a 2-D array. *)
Definition cell2 (a : list (list np_float)) (i j : nat) : option np_float :=
  match nth_error a i with
  | Some row => nth_error row j
  | None => None
  end.

(** The normalized rate of a bin as the specification words it: the
    member's count over the occupancy count, times the sampling rate. *)
Definition spec_rate (count occupancy : Z) (r : np_float) : np_float :=
  (of_Z count / of_Z occupancy * r)%np.

(** The midpoint of two consecutive edges, as [centers] computes it. *)
Definition midpoint (a b : np_float) : np_float :=
  (a + (b - a) / of_Z 2)%np.

(** The samples a histogram over [bins] can count: those from the first
    edge to the last, both included. *)
Definition in_range (bins : list np_float) (v : np_float) : bool :=
  match bins, Np.last1 bins with
  | lo :: _, hi :: _ => negb (sort_lt v lo) && negb (sort_lt hi v)
  | _, _ => false
  end.

(** ** A group, an aligner and a logarithm to run the functions with *)

(** Modelled from the spec: the group built from a dict and a time
    support, whose constructor is not in this file.  A member is the list
    of its event times.  The members are restricted to the time support,
    and the group iterates over its identifiers in increasing order
    (integers before strings). *)
Definition key_leb (a b : key) : bool :=
  match a, b with
  | KInt x, KInt y => x <=? y
  | KInt _, KStr _ => true
  | KStr _, KInt _ => false
  | KStr s, KStr t => String.leb s t
  end.

Fixpoint insert_member {S : Type} (m : key * S) (g : list (key * S))
  : list (key * S) :=
  match g with
  | [] => [m]
  | m' :: g' =>
      if key_leb (fst m) (fst m') then m :: g else m' :: insert_member m g'
  end.

Definition new_TsGroup_events (d : list (key * list Q)) (ep : IntervalSet)
  : TsGroup (list Q) :=
  fold_right insert_member []
    (map (fun m =>
            (fst m, filter (fun t => existsb (in_interval t) ep) (snd m)))
       d).

(** Modelled from the spec: an Aligner.  A member is the list of its event
    times; every event inside the interval set gets the value of the
    feature, restricted to the interval set, at the nearest timestamp (the
    earliest one on a tie). *)
Definition Qdist (a b : Q) : Q := Qabs (a - b).

Definition nearest (t : Q) (ss : list (Q * np_float)) : option np_float :=
  match ss with
  | [] => None
  | s :: ss' =>
      Some (snd (fold_left
                   (fun best x =>
                      if Qle_bool (Qdist t (fst best)) (Qdist t (fst x))
                      then best else x)
                   ss' s))
  end.

Definition value_from_nearest (events : list Q) (feature : Tsd)
    (ep : IntervalSet) : list np_float :=
  flat_map
    (fun t =>
       if existsb (in_interval t) ep
       then match nearest t (samples (restrict feature ep)) with
            | Some v => [v]
            | None => []
            end
       else [])
    events.

(** The integer part of the binary logarithm of a positive rational: exact
    on the powers of two. *)
Definition log2_floor (q : Q) : Q :=
  if Qle_bool 1 q
  then inject_Z (Z.log2 (Qfloor q))
  else inject_Z (- Z.log2_up (Qceiling (/ q))).

(** ** What the loops compute, without the exceptions *)

(** The column [compute_1d_tuning_curves] stores for a member with aligned
    values [vals]. *)
Definition column_1d (occupancy : list Z) (bins : list np_float)
    (r : np_float) (vals : list np_float) : list np_float :=
  map (fun c => (c * r)%np)
    (nan_to_zero
       (Np.map2 div (map of_Z (Np.diffZ (Np.cumulative vals bins)))
          (map of_Z occupancy))).

Definition step_1d (occupancy : list Z) (bins : list np_float)
    (r : np_float) (df : DataFrame) (m : key * list np_float) : DataFrame :=
  setitem
    (setitem df (fst m)
       (nan_to_zero
          (Np.map2 div (map of_Z (Np.diffZ (Np.cumulative (snd m) bins)))
             (map of_Z occupancy))))
    (fst m) (column_1d occupancy bins r (snd m)).

(** ** A small session *)

(** A feature with two samples, at the values 0 and 3, one second apart;
    one member with three events; the epoch [0, 2).  With four edges the
    bins are [0, 1), [1, 2) and [2, 3]: the feature never visits the
    middle one. *)
Definition small_feature : Tsd := mkTsd [(0%Q, Fin 0); (1%Q, Fin 3)] (Fin 1).
Definition small_ep : IntervalSet := [(0%Q, 2%Q)].
Definition small_group : group_arg (list Q) :=
  Group [(KInt 0, [(1 # 10)%Q; (2 # 10)%Q; (9 # 10)%Q])].

(** The same session with three members, given as a dict whose entries are
    not in the order of the identifiers. *)
Definition small_dict : group_arg (list Q) :=
  Dict [(KInt 7, [(9 # 10)%Q]);
        (KInt 0, [(1 # 10)%Q; (2 # 10)%Q; (9 # 10)%Q]);
        (KInt 3, [(1 # 10)%Q; 5%Q])].
Definition small_bins : list np_float := [Fin 0; Fin 1; Fin 2; Fin 3].

(** The table [compute_1d_tuning_curves] returns for it. *)
Definition small_table : DataFrame :=
  mkDataFrame [Fin (1 # 2); Fin (3 # 2); Fin (5 # 2)]
    [(KInt 0, [Fin 2; Fin 0; Fin 1])].

(** The table for the three members of the dict: the columns follow the
    identifiers of the group built from it. *)
Definition dict_table : DataFrame :=
  mkDataFrame [Fin (1 # 2); Fin (3 # 2); Fin (5 # 2)]
    [(KInt 0, [Fin 2; Fin 0; Fin 1]);
     (KInt 3, [Fin 1; Fin 0; Fin 0]);
     (KInt 7, [Fin 0; Fin 0; Fin 1])].

(** The small feature with an infinite sampling rate, and the table of the
    small group for it. *)
Definition instant_feature : Tsd :=
  mkTsd [(0%Q, Fin 0); (1%Q, Fin 3)] (Inf false).
Definition instant_table : DataFrame :=
  mkDataFrame [Fin (1 # 2); Fin (3 # 2); Fin (5 # 2)]
    [(KInt 0, [Inf false; NaN; Inf false])].

(** The cumulative count [np.histogram] takes at the edge [e] when the
    edges [bs] follow it: the last edge is counted inclusively. *)
Definition upper (a : list np_float) (e : np_float) (bs : list np_float)
  : Z :=
  match bs with
  | [] => Np.searchsorted_right a e
  | _ => Np.searchsorted_left a e
  end.

(** A tuning curve with one column that is zero in both of its bins, and
    one whose member fires in the first bin only. *)
Definition silent_tuning : tuning := TcArray 2 [[Fin 0; Fin 0]].
Definition burst_tuning : tuning := TcArray 2 [[Fin 4; Fin 0]].

(** The occupancy of the small session over two bins: half the time in
    each. *)
Definition small_occupancy : list np_float := [Fin (1 # 2); Fin (1 # 2)].

(** A zero of either sign, or NaN. *)
Definition zero_or_nan (x : np_float) : Prop := is_zero x = true \/ x = NaN.

(** The statistic of a column as the amended claim words it, from the
    shares [p] of the bins: the mean rate is the sum of value times share;
    the log2 of value over mean rate is taken as 0 where it is infinite,
    and only there; the statistic is the sum of share times value times
    that logarithm, divided by the mean rate for bits per event. *)
Definition zero_if_infinite (l : np_float) : np_float :=
  if isinf l then Fin 0 else l.

Definition spec_information (log2_pos : Q -> Q) (bitssecond : bool)
    (p col : list np_float) : np_float :=
  let fr := Np.sum (Np.map2 mul col p) in
  let logfx :=
    map (fun v => zero_if_infinite (log2 log2_pos (v / fr)%np)) col in
  let SI := Np.sum (Np.map2 mul (Np.map2 mul p col) logfx) in
  if bitssecond then SI else (SI / fr)%np.

(** The array [compute_2d_tuning_curves] stores for a member, from its
    counts and the occupancy. *)
Definition array_2d (count occupancy : list (list np_float))
    (r : np_float) : list (list np_float) :=
  map (map (fun c => (c * r)%np)) (Np.map2 (Np.map2 div) count occupancy).


(** A frame with the two channels x and y, both the small feature. *)
Definition small_frame : TsdFrame :=
  mkTsdFrame [("x", small_feature); ("y", small_feature)] (Fin 1).

(** A 2-D array with [rows] rows of [cols] cells. *)
Definition has_shape (a : list (list np_float)) (rows cols : nat) : Prop :=
  List.length a = rows /\ Forall (fun row => List.length row = cols) a.

(** The error of [compute_2d_tuning_curves] for a feature that is not
    two-dimensional (the specification's InvalidDimension). *)
Definition invalid_dimension : py_error :=
  RuntimeError "Variable is not 2 dimensional.".

(** A computation that does not end in a [RuntimeError]. *)
Definition no_runtime_error {A : Type} (r : result A) : Prop :=
  forall msg, r <> Raise (RuntimeError msg).

(** What [compute_2d_tuning_curves] returns for the small frame with three
    edges per channel: the member's arrays and the bin centers. *)
Definition small_arrays : list (key * list (list np_float)) :=
  [(KInt 0, [[Fin 2; NaN]; [NaN; Fin 1]])].
Definition small_centers : list (list np_float) :=
  [[Fin (3 # 4); Fin (9 # 4)]; [Fin (3 # 4); Fin (9 # 4)]].
Definition small_edges : list np_float := [Fin 0; Fin (3 # 2); Fin 3].


(** A feature with one sample inside the epoch [0, 1) and one outside,
    whose value 5 lies outside the bounds (0, 1). *)
Definition stray_feature : Tsd :=
  mkTsd [((1 # 2)%Q, Fin (1 # 2)); (10%Q, Fin 5)] (Fin 1).
Definition stray_ep : IntervalSet := [(0%Q, 1%Q)].

(** The table of the small group for it, over the bounds (0, 1). *)
Definition stray_table : DataFrame :=
  mkDataFrame [Fin (1 # 2)] [(KInt 0, [Fin 3])].

(** An epoch that ends half a second into the small session: the second
    sample of the small feature lies outside.  The table of the small
    group over it, with three edges. *)
Definition half_ep : IntervalSet := [((-1)%Q, (1 # 2)%Q)].
Definition half_table : DataFrame :=
  mkDataFrame [Fin (3 # 4); Fin (9 # 4)] [(KInt 0, [Fin 2; Fin 0])].

(** ** The bounds of the edges *)

(** The two bounds [np.linspace] is called with in the 1-D functions: the
    caller's [minmax[0]] and [minmax[1]], or the least and the greatest
    sample of the feature; none when [minmax] holds fewer than two. *)
Definition bounds (feature : Tsd) (minmax : option (list np_float))
  : option (np_float * np_float) :=
  match minmax with
  | None => Some (np_min feature, np_max feature)
  | Some (lo :: hi :: _) => Some (lo, hi)
  | Some _ => None
  end.

(** A value that is neither NaN nor below zero. *)
Definition not_negative (x : np_float) : Prop :=
  isnan x = false /\ ltb x (Fin 0) = false.


(** * Proofs *)

(** ** Exceptions and loops *)

Lemma bind_ok {A B : Type} (c : result A) (k : A -> result B) (b : B) :
  bind c k = Ok b -> exists a, c = Ok a /\ k a = Ok b.
Proof.
  destruct c as [a|e]; simpl; intros H; [eauto | discriminate].
Qed.

Ltac inv_bind H :=
  let a := fresh "a" in
  let Ha := fresh "Ha" in
  apply bind_ok in H; destruct H as [a [Ha H]].

(** ** Lists *)

Lemma nth_error_combine {A B : Type} (l : list A) (l' : list B) (n : nat) :
  nth_error (combine l l') n =
  match nth_error l n, nth_error l' n with
  | Some a, Some b => Some (a, b)
  | _, _ => None
  end.
Proof.
  revert l' n; induction l as [|a l IH]; intros [|b l'] [|n]; simpl;
    try reflexivity.
  - destruct (nth_error l n); reflexivity.
  - apply IH.
Qed.

Lemma nth_error_map2 {A B C : Type} (f : A -> B -> C) l l' n :
  nth_error (Np.map2 f l l') n =
  match nth_error l n, nth_error l' n with
  | Some a, Some b => Some (f a b)
  | _, _ => None
  end.
Proof.
  unfold Np.map2. rewrite nth_error_map, nth_error_combine.
  destruct (nth_error l n), (nth_error l' n); reflexivity.
Qed.

Lemma map2_length {A B C : Type} (f : A -> B -> C) l l' :
  List.length (Np.map2 f l l') = Nat.min (List.length l) (List.length l').
Proof.
  unfold Np.map2. rewrite length_map. apply length_combine.
Qed.

(** ** Floats *)

Lemma mul_NaN_r x : (x * NaN)%np = NaN.
Proof. destruct x; reflexivity. Qed.

Lemma add_NaN_r x : (x + NaN)%np = NaN.
Proof. destruct x; reflexivity. Qed.

Lemma div_NaN_r x : (x / NaN)%np = NaN.
Proof. destruct x; reflexivity. Qed.

Lemma mk_not_nan q s : isnan (mk q s) = false.
Proof.
  unfold mk, zero_of.
  destruct (Qzero q); [destruct s; reflexivity|].
  destruct (overflows (round q)); [reflexivity|].
  destruct (Qzero (round q)); [|reflexivity].
  destruct (Qneg q); reflexivity.
Qed.

Lemma mk_zero_value q s : Qzero q = true -> mk q s = zero_of s.
Proof. unfold mk. intros ->. reflexivity. Qed.

Lemma mk_zero q s : Qzero q = true -> is_zero (mk q s) = true.
Proof. unfold mk, zero_of. intros ->. destruct s; reflexivity. Qed.

Lemma Qzero_mult_l p q : Qzero p = true -> Qzero (p * q) = true.
Proof.
  unfold Qzero. intros H. apply Qeq_bool_iff in H. apply Qeq_bool_iff.
  rewrite H. ring.
Qed.

Lemma Qzero_correct q : Qzero q = true <-> (q == 0)%Q.
Proof. apply Qeq_bool_iff. Qed.

Lemma is_zero_Qval x : is_zero x = true -> Qzero (Qval x) = true.
Proof. destruct x; simpl; try discriminate; auto. Qed.

Lemma is_zero_finite x : is_zero x = true -> is_finite x = true.
Proof. destruct x; simpl; try discriminate; auto. Qed.

(** 0.0 times a finite number is a zero. *)
Lemma mul_zero_finite x r :
  is_zero x = true -> is_finite r = true -> is_zero (x * r)%np = true.
Proof.
  intros Hx Hr. pose proof (is_zero_Qval _ Hx) as Hq.
  destruct x, r; try discriminate; unfold mul;
    apply mk_zero; apply Qzero_mult_l; exact Hq.
Qed.

(** *** Rounding *)

Lemma pow2_pos e : (0 < pow2 e)%Q.
Proof.
  unfold pow2. destruct (0 <=? e) eqn:E.
  - apply Z.leb_le in E. unfold Qlt, inject_Z. simpl.
    pose proof (Z.pow_pos_nonneg 2 e). lia.
  - apply Z.leb_gt in E. apply Qinv_lt_0_compat.
    unfold Qlt, inject_Z. simpl.
    pose proof (Z.pow_pos_nonneg 2 (- e)). lia.
Qed.

Lemma nearest_even_floor q : Qfloor q <= nearest_even q.
Proof.
  unfold nearest_even.
  destruct (q - inject_Z (Qfloor q) ?= 1 # 2)%Q; [|lia|lia].
  destruct (Z.even (Qfloor q)); lia.
Qed.

(** Rounding keeps the sign. *)
Lemma round_abs_nonneg a : (0 <= a)%Q -> (0 <= round_abs a)%Q.
Proof.
  intros Ha. unfold round_abs.
  set (ulp := pow2 (Z.max (exponent a) (-1022) - 52)).
  assert (Hu : (0 < ulp)%Q) by apply pow2_pos.
  apply Qmult_le_0_compat; [|apply Qlt_le_weak; exact Hu].
  assert (Hx : (0 <= a / ulp)%Q).
  { apply Qle_shift_div_l; [exact Hu|]. rewrite Qmult_0_l. exact Ha. }
  apply Qfloor_resp_le in Hx. change (Qfloor 0) with 0 in Hx.
  pose proof (nearest_even_floor (a / ulp)).
  unfold Qle, inject_Z. simpl. lia.
Qed.

Lemma Qneg_correct q : Qneg q = true <-> (q < 0)%Q.
Proof.
  unfold Qneg, Qlt. simpl. rewrite Z.ltb_lt. lia.
Qed.

Lemma round_nonneg q : (0 <= q)%Q -> (0 <= round q)%Q.
Proof.
  intros Hq. unfold round. rewrite Qred_correct.
  assert (Hr : (0 <= Qred q)%Q) by (rewrite Qred_correct; exact Hq).
  destruct (Qneg (Qred q)) eqn:E.
  - apply Qneg_correct in E. exfalso.
    apply (Qlt_irrefl 0). eapply Qle_lt_trans; eassumption.
  - apply round_abs_nonneg. apply Qabs_nonneg.
Qed.

Lemma round_nonpos q : (q <= 0)%Q -> (round q <= 0)%Q.
Proof.
  intros Hq. unfold round. rewrite Qred_correct.
  destruct (Qneg (Qred q)) eqn:E.
  - apply (Qopp_le_compat 0). apply round_abs_nonneg. apply Qabs_nonneg.
  - assert (Hz : (q == 0)%Q).
    { apply Qle_antisym; [exact Hq|].
      apply Qnot_lt_le. intros Hlt.
      assert (Hlt' : (Qred q < 0)%Q) by (rewrite Qred_correct; exact Hlt).
      apply Qneg_correct in Hlt'. congruence. }
    rewrite (Qred_complete q 0 Hz). vm_compute. discriminate.
Qed.


(** An integer that is not zero does not round to zero. *)
Lemma round_abs_Z_pos n : 0 < n -> (0 < round_abs (inject_Z n))%Q.
Proof.
  intros Hn. unfold round_abs.
  assert (He : exponent (inject_Z n) = Z.log2 n).
  { unfold exponent. cbn [Qnum Qden inject_Z]. change (Z.log2 1) with 0.
    rewrite Z.sub_0_r.
    assert (Hle : Qle_bool (pow2 (Z.log2 n)) (inject_Z n) = true).
    { apply Qle_bool_iff. unfold pow2.
      pose proof (Z.log2_nonneg n) as H0. apply Z.leb_le in H0. rewrite H0.
      unfold Qle, inject_Z. simpl. pose proof (Z.log2_spec n Hn). lia. }
    rewrite Hle. reflexivity. }
  rewrite He.
  pose proof (Z.log2_nonneg n) as Hk.
  rewrite Z.max_l by lia.
  set (ulp := pow2 (Z.log2 n - 52)).
  assert (Hu : (0 < ulp)%Q) by apply pow2_pos.
  assert (Hun : (ulp <= inject_Z n)%Q).
  { unfold ulp, pow2. destruct (0 <=? Z.log2 n - 52) eqn:E.
    - apply Z.leb_le in E. unfold Qle, inject_Z. simpl.
      pose proof (Z.log2_spec n Hn) as [Hs _].
      assert (2 ^ (Z.log2 n - 52) <= 2 ^ Z.log2 n)
        by (apply Z.pow_le_mono_r; lia).
      lia.
    - apply Z.leb_gt in E.
      apply Qle_trans with 1%Q.
      + assert (Hp : 0 < 2 ^ (- (Z.log2 n - 52)))
          by (apply Z.pow_pos_nonneg; lia).
        apply Qle_shift_inv_r.
        * unfold Qlt, inject_Z. cbn [Qnum Qden]. lia.
        * rewrite Qmult_1_l. unfold Qle, inject_Z. cbn [Qnum Qden]. lia.
      + unfold Qle, inject_Z. cbn [Qnum Qden]. lia. }
  assert (Hx : (1 <= inject_Z n / ulp)%Q).
  { apply Qle_shift_div_l; [exact Hu|]. rewrite Qmult_1_l. exact Hun. }
  apply Qfloor_resp_le in Hx. change (Qfloor 1) with 1 in Hx.
  pose proof (nearest_even_floor (inject_Z n / ulp)).
  apply Qmult_lt_0_compat; [|exact Hu].
  change 0%Q with (inject_Z 0). rewrite <- Zlt_Qlt. lia.
Qed.

Lemma Qred_inject_Z z : Qred (inject_Z z) = inject_Z z.
Proof.
  unfold Qred, inject_Z.
  pose proof (Z.ggcd_gcd z 1) as Hg.
  pose proof (Z.ggcd_correct_divisors z 1) as Hd.
  change (Z.pos 1) with 1.
  destruct (Z.ggcd z 1) as [g [aa bb]]. cbn [fst snd] in *.
  rewrite Z.gcd_1_r in Hg. subst g. destruct Hd as [Ha Hb].
  rewrite !Z.mul_1_l in *. subst aa bb. reflexivity.
Qed.

Lemma round_Z_nonzero z : z <> 0 -> ~ (round (inject_Z z) == 0)%Q.
Proof.
  intros Hz. unfold round. rewrite Qred_inject_Z, Qred_correct.
  change (Qabs (inject_Z z)) with (inject_Z (Z.abs z)).
  assert (Ha : 0 < Z.abs z) by lia.
  pose proof (round_abs_Z_pos _ Ha) as Hr.
  destruct (Qneg (inject_Z z)); intros E.
  - apply (Qlt_irrefl 0). rewrite <- (Qopp_involutive (round_abs _)) in Hr.
    rewrite E in Hr. exact Hr.
  - rewrite E in Hr. exact (Qlt_irrefl 0 Hr).
Qed.

Lemma of_Z_zero z : is_zero (of_Z z) = true <-> z = 0.
Proof.
  unfold of_Z, is_zero, Qzero. rewrite Qeq_bool_iff. split.
  - intros H. destruct (Z.eq_dec z 0) as [E|E]; [exact E|].
    exfalso. exact (round_Z_nonzero z E H).
  - intros ->. reflexivity.
Qed.

Lemma of_Z_nonzero z : z <> 0 -> is_zero (of_Z z) = false.
Proof.
  intros H. destruct (is_zero (of_Z z)) eqn:E; [|reflexivity].
  apply of_Z_zero in E. contradiction.
Qed.

(** An integer quotient is NaN only for 0/0. *)
Lemma div_of_Z_nonzero c o :
  o <> 0 -> isnan (of_Z c / of_Z o)%np = false.
Proof.
  intros H. pose proof (of_Z_nonzero _ H) as Hz.
  unfold of_Z in *. unfold div. cbn [is_zero] in *. rewrite Hz.
  apply mk_not_nan.
Qed.

Lemma div_zero_zero : (of_Z 0 / of_Z 0)%np = NaN.
Proof. vm_compute. reflexivity. Qed.

(** ** Dicts and frames *)

Lemma key_eqb_eq a b : key_eqb a b = true <-> a = b.
Proof.
  destruct a as [x|s], b as [y|t]; simpl; split; intros H;
    try discriminate; try congruence.
  - apply Z.eqb_eq in H. congruence.
  - inversion H. apply Z.eqb_refl.
  - apply String.eqb_eq in H. congruence.
  - inversion H. apply String.eqb_refl.
Qed.

Section Dict.

Context {K V : Type} (eq : K -> K -> bool).
Hypothesis eq_spec : forall a b, eq a b = true <-> a = b.

Lemma eq_refl_true a : eq a a = true.
Proof. apply eq_spec. reflexivity. Qed.

Lemma lookup_dict_set (k k' : K) (v : V) d :
  lookup eq k' (dict_set eq k v d) =
  if eq k' k then Some v else lookup eq k' d.
Proof.
  induction d as [|[k1 v1] d IH]; simpl.
  - reflexivity.
  - destruct (eq k k1) eqn:E1; simpl.
    + apply eq_spec in E1. subst k1. destruct (eq k' k); reflexivity.
    + rewrite IH. destruct (eq k' k1) eqn:E2; [|reflexivity].
      apply eq_spec in E2. subst k1.
      destruct (eq k' k) eqn:E3; [|reflexivity].
      apply eq_spec in E3. subst k'. rewrite eq_refl_true in E1.
      discriminate.
Qed.

Lemma keys_dict_set (k : K) (v : V) d :
  In k (map fst d) -> map fst (dict_set eq k v d) = map fst d.
Proof.
  induction d as [|[k1 v1] d IH]; simpl; intros H.
  - contradiction.
  - destruct (eq k k1) eqn:E1; simpl.
    + apply eq_spec in E1. congruence.
    + f_equal. apply IH. destruct H as [H|H]; [|exact H].
      subst k1. rewrite eq_refl_true in E1. discriminate.
Qed.

Lemma keys_dict_set_new (k : K) (v : V) d :
  ~ In k (map fst d) -> map fst (dict_set eq k v d) = (map fst d ++ [k])%list.
Proof.
  induction d as [|[k1 v1] d IH]; simpl; intros H.
  - reflexivity.
  - destruct (eq k k1) eqn:E1; simpl.
    + apply eq_spec in E1. subst k1. exfalso. apply H. left. reflexivity.
    + f_equal. apply IH. intros Hin. apply H. right. exact Hin.
Qed.

Lemma lookup_in (k : K) (v : V) d :
  lookup eq k d = Some v -> In (k, v) d.
Proof.
  induction d as [|[k1 v1] d IH]; simpl; intros H; [discriminate|].
  destruct (eq k k1) eqn:E.
  - apply eq_spec in E. left. congruence.
  - right. auto.
Qed.

Lemma lookup_nodup (k : K) (v : V) d :
  NoDup (map fst d) -> In (k, v) d -> lookup eq k d = Some v.
Proof.
  induction d as [|[k1 v1] d IH]; simpl; intros Hnd Hin; [contradiction|].
  inversion Hnd as [|? ? Hnot Hnd']; subst.
  destruct Hin as [Hin|Hin].
  - inversion Hin; subst. rewrite eq_refl_true. reflexivity.
  - destruct (eq k k1) eqn:E.
    + apply eq_spec in E. subst k1. exfalso. apply Hnot.
      apply in_map_iff. exists (k, v). auto.
    + auto.
Qed.

End Dict.

(** ** The loop of the 1-D tuning curves *)

Lemma histogram_ok a bins :
  Np.not_monotonic bins = false ->
  Np.histogram a bins = Ok (Np.diffZ (Np.cumulative a bins)).
Proof. unfold Np.histogram. intros ->. reflexivity. Qed.

Lemma histogram_inv a bins h :
  Np.histogram a bins = Ok h ->
  Np.not_monotonic bins = false /\ h = Np.diffZ (Np.cumulative a bins).
Proof.
  unfold Np.histogram. destruct (Np.not_monotonic bins); intros H;
    [discriminate|]. inversion H. auto.
Qed.

Lemma tuning_curve_1d_ok occ bins r df m :
  Np.not_monotonic bins = false ->
  tuning_curve_1d occ bins r df m = Ok (step_1d occ bins r df m).
Proof.
  intros H. unfold tuning_curve_1d. rewrite (histogram_ok _ _ H).
  reflexivity.
Qed.

Lemma loop_1d_ok occ bins r gv df :
  Np.not_monotonic bins = false ->
  for_each gv df (tuning_curve_1d occ bins r)
  = Ok (fold_left (step_1d occ bins r) gv df).
Proof.
  intros H. revert df. induction gv as [|m gv IH]; intros df; simpl.
  - reflexivity.
  - rewrite (tuning_curve_1d_ok _ _ _ _ _ H). simpl. apply IH.
Qed.

Lemma step_1d_index occ bins r df m :
  index (step_1d occ bins r df m) = index df.
Proof. reflexivity. Qed.

Lemma fold_1d_index occ bins r gv df :
  index (fold_left (step_1d occ bins r) gv df) = index df.
Proof.
  revert df. induction gv as [|m gv IH]; intros df; simpl;
    [reflexivity|]. rewrite IH. reflexivity.
Qed.

Lemma step_1d_lookup occ bins r df m k :
  lookup key_eqb k (frame (step_1d occ bins r df m)) =
  if key_eqb k (fst m) then Some (column_1d occ bins r (snd m))
  else lookup key_eqb k (frame df).
Proof.
  unfold step_1d, setitem. simpl.
  rewrite !(lookup_dict_set key_eqb key_eqb_eq).
  destruct (key_eqb k (fst m)); reflexivity.
Qed.

Lemma step_1d_keys occ bins r df m :
  In (fst m) (map fst (frame df)) ->
  map fst (frame (step_1d occ bins r df m)) = map fst (frame df).
Proof.
  intros H. unfold step_1d, setitem. simpl.
  rewrite (keys_dict_set key_eqb key_eqb_eq).
  - apply (keys_dict_set key_eqb key_eqb_eq). exact H.
  - rewrite (keys_dict_set key_eqb key_eqb_eq); exact H.
Qed.

Lemma fold_1d_keys occ bins r gv df :
  (forall m, In m gv -> In (fst m) (map fst (frame df))) ->
  map fst (frame (fold_left (step_1d occ bins r) gv df))
  = map fst (frame df).
Proof.
  revert df. induction gv as [|m gv IH]; intros df H; simpl.
  - reflexivity.
  - assert (Hk : map fst (frame (step_1d occ bins r df m))
                 = map fst (frame df))
      by (apply step_1d_keys; apply H; left; reflexivity).
    rewrite IH; [exact Hk|].
    intros m' Hm'. rewrite Hk. apply H. right. exact Hm'.
Qed.

(** A property that holds of the column of every member holds of the
    columns the loop leaves in the frame. *)
Lemma fold_1d_lookup (P : key -> list np_float -> Prop) occ bins r gv :
  (forall m, In m gv -> P (fst m) (column_1d occ bins r (snd m))) ->
  forall df k,
    In k (map fst gv)
    \/ (exists c, lookup key_eqb k (frame df) = Some c /\ P k c) ->
    exists c,
      lookup key_eqb k (frame (fold_left (step_1d occ bins r) gv df))
      = Some c /\ P k c.
Proof.
  induction gv as [|m gv IH]; intros HP df k Hk; simpl.
  - destruct Hk as [[]|Hk]. exact Hk.
  - apply IH.
    + intros m' Hm'. apply HP. right. exact Hm'.
    + rewrite step_1d_lookup.
      destruct (key_eqb k (fst m)) eqn:E.
      * right. apply key_eqb_eq in E. subst k. eexists. split; [reflexivity|].
        apply HP. left. reflexivity.
      * destruct Hk as [[Hk|Hk]|Hk].
        -- subst k. rewrite (eq_refl_true key_eqb key_eqb_eq) in E.
           discriminate.
        -- left. exact Hk.
        -- right. exact Hk.
Qed.

(** ** Edges and centers *)

Lemma init_length {A : Type} (l : list A) :
  List.length (Np.init l) = (List.length l - 1)%nat.
Proof.
  unfold Np.init. induction l as [|a [|b l] IH]; simpl in *; try reflexivity.
  rewrite IH. lia.
Qed.

Lemma rest_length {A : Type} (l : list A) :
  List.length (Np.rest l) = (List.length l - 1)%nat.
Proof. destruct l; simpl; lia. Qed.

Lemma last1_length {A : Type} (l : list A) :
  List.length (Np.last1 l) = Nat.min 1 (List.length l).
Proof.
  induction l as [|a [|b l] IH]; try reflexivity.
  change (Np.last1 (a :: b :: l)) with (Np.last1 (b :: l)). rewrite IH.
  simpl. reflexivity.
Qed.

Lemma nth_error_init {A : Type} (l : list A) i :
  nth_error (Np.init l) i =
  if (S i <? List.length l)%nat then nth_error l i else None.
Proof.
  unfold Np.init. revert i.
  induction l as [|a [|b l] IH]; intros i.
  - destruct i; reflexivity.
  - destruct i; reflexivity.
  - destruct i as [|i].
    + reflexivity.
    + change (nth_error (removelast (a :: b :: l)) (S i))
        with (nth_error (removelast (b :: l)) i).
      rewrite IH. reflexivity.
Qed.

Lemma nth_error_rest {A : Type} (l : list A) i :
  nth_error (Np.rest l) i = nth_error l (S i).
Proof. destruct l; [destruct i|]; reflexivity. Qed.

Lemma diff_length a : List.length (Np.diff a) = (List.length a - 1)%nat.
Proof.
  unfold Np.diff. rewrite map2_length, rest_length, init_length. lia.
Qed.

Lemma diffZ_length a : List.length (Np.diffZ a) = (List.length a - 1)%nat.
Proof.
  unfold Np.diffZ. rewrite map2_length, rest_length, init_length. lia.
Qed.

Lemma centers_length bins :
  List.length (centers bins) = (List.length bins - 1)%nat.
Proof.
  unfold centers. rewrite map2_length, length_map, init_length, diff_length.
  lia.
Qed.

Lemma nth_error_centers bins i :
  nth_error (centers bins) i =
  match nth_error bins i, nth_error bins (S i) with
  | Some a, Some b => Some (midpoint a b)
  | _, _ => None
  end.
Proof.
  unfold centers, Np.diff. rewrite nth_error_map2, nth_error_map.
  rewrite nth_error_map2, nth_error_init, nth_error_rest.
  destruct (S i <? List.length bins)%nat eqn:E.
  - destruct (nth_error bins i), (nth_error bins (S i)); reflexivity.
  - apply Nat.ltb_ge in E. apply nth_error_None in E. rewrite E.
    destruct (nth_error bins i); reflexivity.
Qed.

Lemma cumulative_length a bins :
  List.length (Np.cumulative a bins) = List.length bins.
Proof.
  unfold Np.cumulative.
  rewrite length_app, !length_map, init_length, last1_length.
  destruct bins; simpl; lia.
Qed.

Lemma arange_length num : List.length (Np.arange num) = Z.to_nat num.
Proof. unfold Np.arange. rewrite length_map, length_seq. reflexivity. Qed.

Lemma set_last_length y v :
  List.length (Np.set_last y v) = List.length y.
Proof.
  unfold Np.set_last. destruct y as [|a y]; [reflexivity|].
  rewrite length_app, init_length. simpl. lia.
Qed.

Lemma linspace_length start stop num l :
  Np.linspace start stop num = Ok l -> List.length l = Z.to_nat num.
Proof.
  unfold Np.linspace. destruct (num <? 0); [discriminate|].
  intros H. inversion H as [Hl]. clear H Hl.
  assert (Hy : forall f : np_float -> np_float,
             List.length (map f (Np.arange num)) = Z.to_nat num)
    by (intros f; rewrite length_map; apply arange_length).
  destruct (1 <? num); [rewrite set_last_length|]; rewrite length_map;
    destruct (0 <? num - 1); [destruct (eqb _ _)| |destruct (eqb _ _)|];
    apply Hy.
Qed.

Lemma edges_length feature nb_bins minmax bins :
  edges feature nb_bins minmax = Ok bins ->
  List.length bins = Z.to_nat nb_bins.
Proof.
  unfold edges. destruct minmax as [mm|]; [|apply linspace_length].
  intros H. inv_bind H. inv_bind H. eapply linspace_length. exact H.
Qed.

(** ** Arithmetic of the finite values *)

Lemma is_zero_iff x :
  is_finite x = true -> (is_zero x = true <-> (Qval x == 0)%Q).
Proof.
  destruct x; cbn [is_finite is_zero Qval]; try discriminate; intros _.
  - apply Qzero_correct.
  - split; reflexivity.
Qed.

Lemma of_Z_finite z : is_finite (of_Z z) = true.
Proof. reflexivity. Qed.

(** ** The table of the 1-D tuning curves *)

Lemma dict_set_Forall {K V : Type} (eq : K -> K -> bool)
    (P : K * V -> Prop) k v d :
  Forall P d -> P (k, v) -> Forall P (dict_set eq k v d).
Proof.
  intros Hd Hk. induction d as [|[k1 v1] d IH]; simpl.
  - constructor; [exact Hk | constructor].
  - inversion Hd; subst. destruct (eq k k1); constructor; auto.
Qed.

Lemma nth_error_column_1d occ bins r vals i :
  nth_error (column_1d occ bins r vals) i =
  match nth_error (Np.diffZ (Np.cumulative vals bins)) i, nth_error occ i with
  | Some c, Some o =>
      Some ((if isnan (of_Z c / of_Z o)%np then Fin 0
             else (of_Z c / of_Z o)%np) * r)%np
  | _, _ => None
  end.
Proof.
  unfold column_1d, nan_to_zero.
  rewrite !nth_error_map, nth_error_map2, !nth_error_map.
  destruct (nth_error (Np.diffZ _) i), (nth_error occ i); reflexivity.
Qed.

Lemma column_1d_length occ bins r vals :
  List.length (column_1d occ bins r vals)
  = Nat.min (List.length bins - 1) (List.length occ).
Proof.
  unfold column_1d, nan_to_zero.
  rewrite !length_map, map2_length, !length_map, diffZ_length,
    cumulative_length. reflexivity.
Qed.

Lemma fold_1d_columns (P : key * list np_float -> Prop) occ bins r gv :
  (forall m, In m gv -> P (fst m, column_1d occ bins r (snd m))) ->
  (forall m, In m gv ->
     P (fst m, nan_to_zero
                 (Np.map2 div
                    (map of_Z (Np.diffZ (Np.cumulative (snd m) bins)))
                    (map of_Z occ)))) ->
  forall df, Forall P (frame df) ->
  Forall P (frame (fold_left (step_1d occ bins r) gv df)).
Proof.
  intros H2 H1. induction gv as [|m gv IH]; intros df Hdf; simpl.
  - exact Hdf.
  - apply IH.
    + intros m' Hm'. apply H2. right. exact Hm'.
    + intros m' Hm'. apply H1. right. exact Hm'.
    + unfold step_1d, setitem. simpl. apply dict_set_Forall.
      * apply dict_set_Forall; [exact Hdf|].
        apply H1. left. reflexivity.
      * apply H2. left. reflexivity.
Qed.

(** What a successful call went through. *)
Lemma compute_1d_inv series value_from new_TsGroup
    (group : group_arg series) feature ep nb_bins minmax tc :
  compute_1d_tuning_curves series value_from new_TsGroup group feature ep
    nb_bins minmax = Ok tc ->
  exists bins occupancy,
    edges feature nb_bins minmax = Ok bins
    /\ Np.not_monotonic bins = false
    /\ Np.histogram (values feature) bins = Ok occupancy
    /\ occupancy = Np.diffZ (Np.cumulative (values feature) bins)
    /\ tc = fold_left (step_1d occupancy bins (rate feature))
              (group_value_from series value_from
                 (as_TsGroup series new_TsGroup group ep) feature ep)
              (new_DataFrame (centers bins)
                 (keys series (as_TsGroup series new_TsGroup group ep))).
Proof.
  unfold compute_1d_tuning_curves. intros H.
  inv_bind H. rename a into bins. inv_bind H. rename a into occ.
  destruct (histogram_inv _ _ _ Ha0) as [Hm Ho].
  rewrite (loop_1d_ok _ _ _ _ _ Hm) in H. inversion H.
  exists bins, occ. auto.
Qed.


Lemma group_value_keys series value_from (group : TsGroup series)
    feature ep :
  map fst (group_value_from series value_from group feature ep)
  = keys series group.
Proof.
  unfold group_value_from, keys. rewrite map_map. reflexivity.
Qed.

Lemma new_DataFrame_keys idx cols :
  map fst (frame (new_DataFrame idx cols)) = cols.
Proof.
  unfold new_DataFrame. simpl. rewrite map_map. simpl. apply map_id.
Qed.

(** C4. For [nb_bins >= 2] and a non-empty group, the table that
    [compute_1d_tuning_curves] returns has [nb_bins - 1] rows, indexed by
    the midpoints of the consecutive edges, and one column of [nb_bins - 1]
    cells per identifier of the group, in the order in which the group
    iterates: the group the caller gave or, for a dict, the group that
    line 37 builds from it. *)
Theorem table_shape_1d series value_from new_TsGroup
    (group : group_arg series) feature ep nb_bins minmax tc :
  2 <= nb_bins ->
  as_TsGroup series new_TsGroup group ep <> [] ->
  compute_1d_tuning_curves series value_from new_TsGroup group feature ep
    nb_bins minmax = Ok tc ->
  exists bins,
    edges feature nb_bins minmax = Ok bins
    /\ List.length bins = Z.to_nat nb_bins
    /\ List.length (index tc) = Z.to_nat (nb_bins - 1)
    /\ (forall i, (i < Z.to_nat (nb_bins - 1))%nat ->
          exists a b,
            nth_error bins i = Some a /\ nth_error bins (S i) = Some b
            /\ nth_error (index tc) i = Some (midpoint a b))
    /\ map fst (frame tc)
       = match group with
         | Group g => keys series g
         | Dict d => keys series (new_TsGroup d ep)
         end
    /\ Forall (fun kc => List.length (snd kc) = Z.to_nat (nb_bins - 1))
         (frame tc).
Proof.
  intros Hn _ H.
  destruct (compute_1d_inv _ _ _ _ _ _ _ _ _ H)
    as (bins & occ & He & Hm & _ & Ho & Htc).
  pose proof (edges_length _ _ _ _ He) as Hl.
  assert (Hl1 : (List.length bins - 1)%nat = Z.to_nat (nb_bins - 1))
    by (rewrite Hl; lia).
  exists bins. split; [exact He|]. split; [exact Hl|].
  subst tc. rewrite fold_1d_index. simpl.
  split; [rewrite centers_length; exact Hl1|]. split; [|split].
  - intros i Hi.
    destruct (nth_error bins i) as [a|] eqn:Ea.
    2:{ apply nth_error_None in Ea. lia. }
    destruct (nth_error bins (S i)) as [b|] eqn:Eb.
    2:{ apply nth_error_None in Eb. lia. }
    exists a, b. rewrite nth_error_centers, Ea, Eb. auto.
  - rewrite fold_1d_keys; rewrite new_DataFrame_keys.
    + destruct group; reflexivity.
    + intros m Hm'.
      rewrite <- (group_value_keys series value_from _ feature ep).
      apply in_map. exact Hm'.
  - assert (Hocc : List.length occ = Z.to_nat (nb_bins - 1))
      by (rewrite Ho, diffZ_length, cumulative_length; exact Hl1).
    apply fold_1d_columns.
    + intros m _. simpl. rewrite column_1d_length. lia.
    + intros m _. simpl. unfold nan_to_zero.
      rewrite length_map, map2_length, !length_map, diffZ_length,
        cumulative_length. lia.
    + unfold new_DataFrame. simpl. apply Forall_forall.
      intros kc Hkc. apply in_map_iff in Hkc. destruct Hkc as [k [<- _]].
      simpl. rewrite length_map, centers_length. exact Hl1.
Qed.

(** ** Counting *)

Lemma count_nonneg {A : Type} (p : A -> bool) l : 0 <= Np.count p l.
Proof. unfold Np.count. lia. Qed.

Lemma count_cons {A : Type} (p : A -> bool) x l :
  Np.count p (x :: l) = (if p x then 1 else 0) + Np.count p l.
Proof.
  unfold Np.count. simpl. destruct (p x); simpl List.length; lia.
Qed.

Lemma count_split {A : Type} (p q : A -> bool) l :
  (forall x, In x l -> p x = true -> q x = true) ->
  Np.count q l = Np.count p l + Np.count (fun x => q x && negb (p x)) l.
Proof.
  induction l as [|x l IH]; intros H.
  - reflexivity.
  - rewrite !count_cons, IH by (intros y Hy; apply H; right; exact Hy).
    specialize (H x (or_introl Logic.eq_refl)).
    destruct (p x), (q x); cbn [andb negb]; lia.
Qed.

Lemma count_zero {A : Type} (p : A -> bool) l :
  Np.count p l = 0 <-> (forall x, In x l -> p x = false).
Proof.
  induction l as [|x l IH].
  - split; [intros _ x []|reflexivity].
  - rewrite count_cons. pose proof (count_nonneg p l) as Hn. split.
    + intros H y [<-|Hy].
      * destruct (p x); [lia|reflexivity].
      * apply IH; [destruct (p x); lia | exact Hy].
    + intros H. rewrite (H x (or_introl Logic.eq_refl)).
      rewrite Z.add_0_l. apply IH. intros y Hy. apply H. right. exact Hy.
Qed.

Lemma count_le_filter {A : Type} (p f : A -> bool) l :
  Np.count p (filter f l) <= Np.count p l.
Proof.
  induction l as [|x l IH]; [reflexivity|]. simpl.
  destruct (f x); rewrite ?count_cons; destruct (p x); lia.
Qed.

Lemma count_lt_filter {A : Type} (p f : A -> bool) l x :
  In x l -> p x = true -> f x = false ->
  Np.count p (filter f l) < Np.count p l.
Proof.
  induction l as [|y l IH]; intros Hin Hp Hf; [contradiction|].
  simpl. destruct Hin as [->|Hin].
  - rewrite Hf, count_cons, Hp. pose proof (count_le_filter p f l). lia.
  - specialize (IH Hin Hp Hf).
    destruct (f y); rewrite ?count_cons; destruct (p y); lia.
Qed.

(** ** The order on finite values *)

Lemma ltb_finite x y :
  is_finite x = true -> is_finite y = true ->
  (ltb x y = true <-> (Qval x < Qval y)%Q).
Proof.
  intros Hx Hy. rewrite Qlt_alt.
  destruct x, y; cbn [is_finite] in *; try discriminate; unfold ltb;
    destruct (Qcompare _ _); split; intros H; try discriminate;
    reflexivity.
Qed.

Lemma ltb_left_not_nan x y : ltb x y = true -> isnan x = false.
Proof. destruct x; [reflexivity..|]. destruct y; discriminate. Qed.

(** Below a finite value: minus infinity, or a smaller finite value. *)
Lemma sort_lt_finite x e :
  is_finite e = true ->
  (sort_lt x e = true <->
   x = Inf true \/ (is_finite x = true /\ (Qval x < Qval e)%Q)).
Proof.
  intros He. unfold sort_lt.
  assert (Hn : isnan e = false) by (destruct e; try discriminate; reflexivity).
  rewrite Hn. simpl. rewrite orb_false_r.
  destruct x as [q| |[|]|].
  - rewrite (ltb_finite (Fin q) e Logic.eq_refl He). split.
    + intros H. right. auto.
    + intros [H|[_ H]]; [discriminate|exact H].
  - rewrite (ltb_finite NegZero e Logic.eq_refl He). split.
    + intros H. right. auto.
    + intros [H|[_ H]]; [discriminate|exact H].
  - destruct e; try discriminate; simpl; split; auto.
  - destruct e; try discriminate; simpl; split; try discriminate;
      intros [H|[H _]]; discriminate.
  - destruct e; try discriminate; simpl; split; try discriminate;
      intros [H|[H _]]; discriminate.
Qed.

(** Above a finite value. *)
Lemma sort_gt_finite e x :
  is_finite e = true ->
  (sort_lt e x = true <->
   x = NaN \/ x = Inf false \/ (is_finite x = true /\ (Qval e < Qval x)%Q)).
Proof.
  intros He. unfold sort_lt.
  assert (Hn : isnan e = false) by (destruct e; try discriminate; reflexivity).
  rewrite Hn. simpl. rewrite andb_true_r.
  destruct x as [q| |[|]|].
  - simpl. rewrite orb_false_r.
    rewrite (ltb_finite e (Fin q) He Logic.eq_refl). split.
    + intros H. right. right. auto.
    + intros [H|[H|[_ H]]]; [discriminate..|exact H].
  - simpl. rewrite orb_false_r.
    rewrite (ltb_finite e NegZero He Logic.eq_refl). split.
    + intros H. right. right. auto.
    + intros [H|[H|[_ H]]]; [discriminate..|exact H].
  - destruct e; try discriminate; simpl; split; try discriminate;
      intros [H|[H|[H _]]]; discriminate.
  - destruct e; try discriminate; simpl; split; auto.
  - destruct e; try discriminate; simpl; split; auto.
Qed.

Lemma gtb_false_finite a b :
  is_finite a = true -> is_finite b = true ->
  gtb a b = false -> (Qval a <= Qval b)%Q.
Proof.
  intros Ha Hb H. unfold gtb in H. apply Qnot_lt_le. intros Hlt.
  apply (ltb_finite b a Hb Ha) in Hlt. congruence.
Qed.

(** What lies before an edge lies before the next one, and is not after
    it. *)
Lemma before_next a b x :
  is_finite a = true -> is_finite b = true -> gtb a b = false ->
  sort_lt x a = true -> sort_lt x b = true.
Proof.
  intros Ha Hb Hab H. pose proof (gtb_false_finite a b Ha Hb Hab) as Hle.
  apply (sort_lt_finite x a Ha) in H. apply (sort_lt_finite x b Hb).
  destruct H as [H|[Hx H]]; [left; exact H|right]. split; [exact Hx|].
  eapply Qlt_le_trans; eassumption.
Qed.

Lemma before_not_after a b x :
  is_finite a = true -> is_finite b = true -> gtb a b = false ->
  sort_lt x a = true -> negb (sort_lt b x) = true.
Proof.
  intros Ha Hb Hab H. pose proof (gtb_false_finite a b Ha Hb Hab) as Hle.
  apply (sort_lt_finite x a Ha) in H. apply negb_true_iff.
  destruct (sort_lt b x) eqn:E; [|reflexivity]. exfalso.
  apply (sort_gt_finite b x Hb) in E.
  destruct H as [H|[Hx H]].
  - subst x. destruct E as [E|[E|[E _]]]; discriminate.
  - destruct E as [E|[E|[_ E]]]; try (subst x; discriminate).
    apply (Qlt_irrefl (Qval x)).
    eapply Qlt_trans; [exact H|]. eapply Qle_lt_trans; eassumption.
Qed.

(** ** The histogram, edge by edge *)

Lemma cumulative_cons a e bs :
  Np.cumulative a (e :: bs) = upper a e bs :: Np.cumulative a bs.
Proof. destruct bs; reflexivity. Qed.

Lemma diffZ_cons2 c0 c1 cs :
  Np.diffZ (c0 :: c1 :: cs) = (c1 - c0) :: Np.diffZ (c1 :: cs).
Proof. reflexivity. Qed.

Lemma histogram_cons2 a e e' bs :
  Np.diffZ (Np.cumulative a (e :: e' :: bs))
  = (upper a e' bs - Np.searchsorted_left a e)
    :: Np.diffZ (Np.cumulative a (e' :: bs)).
Proof. rewrite !cumulative_cons. apply diffZ_cons2. Qed.

Lemma not_monotonic_cons2 e e' bs :
  Np.not_monotonic (e :: e' :: bs)
  = gtb e e' || Np.not_monotonic (e' :: bs).
Proof. reflexivity. Qed.

Lemma diff_zero_incl (p q : np_float -> bool) F A :
  (forall x, p x = true -> q x = true) ->
  incl A F ->
  Np.count q F - Np.count p F = 0 -> Np.count q A - Np.count p A = 0.
Proof.
  intros Hpq Hincl H.
  rewrite (count_split p q F) in H by (intros; auto).
  rewrite (count_split p q A) by (intros; auto).
  assert (H0 : Np.count (fun x => q x && negb (p x)) F = 0) by lia.
  assert (H1 : Np.count (fun x => q x && negb (p x)) A = 0).
  { apply count_zero. intros x Hx.
    apply (proj1 (count_zero _ F) H0). apply Hincl. exact Hx. }
  lia.
Qed.

(** A bin the feature never visits holds no value taken from the
    feature. *)
Lemma zero_bin F A bins :
  incl A F ->
  Forall (fun e => is_finite e = true) bins ->
  Np.not_monotonic bins = false ->
  forall i,
    nth_error (Np.diffZ (Np.cumulative F bins)) i = Some 0 ->
    nth_error (Np.diffZ (Np.cumulative A bins)) i = Some 0.
Proof.
  intros Hincl. induction bins as [|e bs IH]; intros Hfin Hmono i H.
  - destruct i; discriminate.
  - destruct bs as [|e' bs].
    + destruct i; discriminate.
    + rewrite histogram_cons2 in *. rewrite not_monotonic_cons2 in Hmono.
      apply orb_false_iff in Hmono. destruct Hmono as [Hee' Hmono].
      inversion Hfin as [|? ? He Hfin']; subst.
      inversion Hfin' as [|? ? He' _]; subst.
      destruct i as [|i].
      * simpl in *. inversion H as [H0]. rewrite H0. f_equal.
        unfold upper, Np.searchsorted_left, Np.searchsorted_right in *.
        destruct bs.
        -- eapply diff_zero_incl; [|exact Hincl|exact H0].
           intros x Hx. exact (before_not_after e e' x He He' Hee' Hx).
        -- eapply diff_zero_incl; [|exact Hincl|exact H0].
           intros x Hx. exact (before_next e e' x He He' Hee' Hx).
      * simpl in *. apply IH; assumption.
Qed.


(** ** The cells of the 1-D tuning curves *)

Lemma NoDup_keys_inj {K V : Type} (l : list (K * V)) k a b :
  NoDup (map fst l) -> In (k, a) l -> In (k, b) l -> a = b.
Proof.
  induction l as [|[k1 v1] l IH]; simpl; intros Hnd Ha Hb; [contradiction|].
  inversion Hnd as [|? ? Hnot Hnd']; subst.
  destruct Ha as [Ha|Ha], Hb as [Hb|Hb].
  - congruence.
  - inversion Ha; subst. exfalso. apply Hnot.
    apply in_map_iff. exists (k, b). auto.
  - inversion Hb; subst. exfalso. apply Hnot.
    apply in_map_iff. exists (k, a). auto.
  - auto.
Qed.

Lemma in_group_value series value_from (group : TsGroup series)
    feature ep m :
  In m (group_value_from series value_from group feature ep) ->
  exists s, In (fst m, s) group /\ snd m = value_from s feature ep.
Proof.
  unfold group_value_from. intros H. apply in_map_iff in H.
  destruct H as [[k s] [<- Hin]]. exists s. auto.
Qed.

(** C1, amended. In every bin whose occupancy count is not zero, the cell
    of a member is its histogram count over the occupancy count, times
    the sampling rate of the feature. *)
Theorem normalized_rate_visited_bins series value_from new_TsGroup
    (group : group_arg series) feature ep nb_bins minmax tc k s :
  compute_1d_tuning_curves series value_from new_TsGroup group feature ep
    nb_bins minmax = Ok tc ->
  NoDup (keys series (as_TsGroup series new_TsGroup group ep)) ->
  In (k, s) (as_TsGroup series new_TsGroup group ep) ->
  exists bins occupancy count,
    edges feature nb_bins minmax = Ok bins
    /\ Np.histogram (values feature) bins = Ok occupancy
    /\ Np.histogram (value_from s feature ep) bins = Ok count
    /\ forall i c o,
         nth_error count i = Some c -> nth_error occupancy i = Some o ->
         o <> 0 ->
         cell tc k i = Some (spec_rate c o (rate feature)).
Proof.
  intros H Hnd Hin.
  destruct (compute_1d_inv _ _ _ _ _ _ _ _ _ H)
    as (bins & occ & He & Hm & Hh & Ho & Htc).
  set (g := as_TsGroup series new_TsGroup group ep) in *.
  exists bins, occ, (Np.diffZ (Np.cumulative (value_from s feature ep) bins)).
  split; [exact He|]. split; [exact Hh|].
  split; [apply histogram_ok; exact Hm|].
  intros i c o Hc Ho' Hnz.
  set (P := fun (k' : key) (col : list np_float) =>
              forall s', In (k', s') g ->
                col = column_1d occ bins (rate feature)
                        (value_from s' feature ep)).
  destruct (fold_1d_lookup P occ bins (rate feature)
              (group_value_from series value_from g feature ep))
    with (df := new_DataFrame (centers bins) (keys series g)) (k := k)
    as [col [Hl Hcol]].
  - intros m Hm'. destruct (in_group_value _ _ _ _ _ _ Hm') as [s0 [Hs0 Hv]].
    intros s' Hs'. rewrite Hv.
    rewrite (NoDup_keys_inj g (fst m) s0 s' Hnd Hs0 Hs'). reflexivity.
  - left. rewrite group_value_keys. unfold keys.
    apply in_map_iff. exists (k, s). auto.
  - unfold cell. rewrite Htc, Hl, (Hcol s Hin), nth_error_column_1d, Hc, Ho'.
    rewrite (div_of_Z_nonzero c o Hnz). reflexivity.
Qed.


(** ** The aligner of the small session *)

Lemma fold_pick_in {A : Type} (c : A -> A -> bool) l s :
  In (fold_left (fun best x => if c best x then best else x) l s) (s :: l).
Proof.
  revert s. induction l as [|x l IH]; intros s; simpl.
  - left. reflexivity.
  - destruct (c s x).
    + destruct (IH s) as [H|H]; [left; exact H|right; right; exact H].
    + right. apply IH.
Qed.

Lemma nearest_in t ss v : nearest t ss = Some v -> In v (map snd ss).
Proof.
  unfold nearest. destruct ss as [|s ss]; [discriminate|].
  intros H. inversion H. apply in_map. apply fold_pick_in.
Qed.

(** The nearest-sample aligner only gives values of the feature. *)
Lemma value_from_nearest_incl events feature ep :
  incl (value_from_nearest events feature ep) (values feature).
Proof.
  unfold value_from_nearest. intros v Hv. apply in_flat_map in Hv.
  destruct Hv as [t [_ Hv]].
  destruct (existsb (in_interval t) ep); [|contradiction].
  destruct (nearest t (samples (restrict feature ep))) as [w|] eqn:E;
    [|contradiction].
  destruct Hv as [<-|[]]. apply nearest_in in E.
  apply in_map_iff in E. destruct E as [x [Hx Hin]].
  unfold restrict in Hin. simpl in Hin. apply filter_In in Hin.
  unfold values. apply in_map_iff. exists x. tauto.
Qed.
(** ** The small session, run *)

Lemma small_session_runs :
  compute_1d_tuning_curves (list Q) value_from_nearest new_TsGroup_events
    small_group small_feature small_ep 4 None = Ok small_table.
Proof. vm_compute. reflexivity. Qed.

Lemma table_shape_1d_witness :
  2 <= 4
  /\ as_TsGroup (list Q) new_TsGroup_events small_dict small_ep <> []
  /\ compute_1d_tuning_curves (list Q) value_from_nearest new_TsGroup_events
       small_dict small_feature small_ep 4 None = Ok dict_table
  /\ List.length (index dict_table) = 3%nat
  /\ map fst (frame dict_table) = [KInt 0; KInt 3; KInt 7].
Proof.
  assert (H1 : 2 <= 4) by lia.
  assert (H2 : as_TsGroup (list Q) new_TsGroup_events small_dict small_ep
               <> []) by (vm_compute; discriminate).
  assert (H3 : compute_1d_tuning_curves (list Q) value_from_nearest
                 new_TsGroup_events small_dict small_feature small_ep 4 None
               = Ok dict_table)
    by (vm_compute; reflexivity).
  destruct (table_shape_1d (list Q) value_from_nearest new_TsGroup_events
              small_dict small_feature small_ep 4 None dict_table H1 H2 H3)
    as (bins & _ & _ & Hlen & _ & Hk & _).
  repeat split; assumption.
Defined.

(** C1, as stated, fails in the bin the feature never visits: the member
    has no value there, its cell is 0, and the quotient of the counts
    times the rate is NaN. *)
Lemma normalized_rate_unvisited_bin :
  compute_1d_tuning_curves (list Q) value_from_nearest new_TsGroup_events
    small_group small_feature small_ep 4 None = Ok small_table
  /\ edges small_feature 4 None = Ok small_bins
  /\ Np.histogram (values small_feature) small_bins = Ok [1; 0; 1]
  /\ Np.histogram
       (value_from_nearest [(1 # 10)%Q; (2 # 10)%Q; (9 # 10)%Q]
          small_feature small_ep) small_bins = Ok [2; 0; 1]
  /\ cell small_table (KInt 0) 1 = Some (Fin 0)
  /\ spec_rate 0 0 (rate small_feature) = NaN.
Proof. vm_compute. repeat split; reflexivity. Qed.

Lemma normalized_rate_visited_bins_witness :
  NoDup (keys (list Q)
           (as_TsGroup (list Q) new_TsGroup_events small_group small_ep))
  /\ In (KInt 0, [(1 # 10)%Q; (2 # 10)%Q; (9 # 10)%Q])
       (as_TsGroup (list Q) new_TsGroup_events small_group small_ep)
  /\ cell small_table (KInt 0) 0 = Some (spec_rate 2 1 (rate small_feature)).
Proof.
  assert (H1 : compute_1d_tuning_curves (list Q) value_from_nearest
                 new_TsGroup_events small_group small_feature small_ep 4 None
               = Ok small_table)
    by (vm_compute; reflexivity).
  assert (H2 : NoDup (keys (list Q)
                        (as_TsGroup (list Q) new_TsGroup_events small_group
                           small_ep)))
    by (repeat constructor; simpl; tauto).
  assert (H3 : In (KInt 0, [(1 # 10)%Q; (2 # 10)%Q; (9 # 10)%Q])
                 (as_TsGroup (list Q) new_TsGroup_events small_group
                    small_ep))
    by (left; reflexivity).
  destruct (normalized_rate_visited_bins (list Q) value_from_nearest
              new_TsGroup_events small_group small_feature small_ep 4 None
              small_table (KInt 0) _ H1 H2 H3)
    as (bins & occ & count & He & Ho & Hc & Hcell).
  split; [exact H2|]. split; [exact H3|].
  assert (Ho' : Np.histogram (values small_feature) small_bins = Ok [1; 0; 1])
    by (vm_compute; reflexivity).
  assert (Hc' : Np.histogram
                  (value_from_nearest [(1 # 10)%Q; (2 # 10)%Q; (9 # 10)%Q]
                     small_feature small_ep) small_bins = Ok [2; 0; 1])
    by (vm_compute; reflexivity).
  assert (He' : edges small_feature 4 None = Ok small_bins)
    by (vm_compute; reflexivity).
  rewrite He' in He. inversion He; subst bins.
  rewrite Ho' in Ho. inversion Ho; subst occ.
  rewrite Hc' in Hc. inversion Hc; subst count.
  apply (Hcell 0%nat 2 1); [reflexivity | reflexivity | discriminate].
Defined.

(** C2, as stated, fails when the sampling rate is infinite: the bin the
    feature never visits holds 0.0 after the fill, and 0.0 times the rate
    is NaN. *)
Lemma unvisited_bin_infinite_rate :
  compute_1d_tuning_curves (list Q) value_from_nearest new_TsGroup_events
    small_group instant_feature small_ep 4 None = Ok instant_table
  /\ edges instant_feature 4 None = Ok small_bins
  /\ Np.histogram (values instant_feature) small_bins = Ok [1; 0; 1]
  /\ rate instant_feature = Inf false
  /\ cell instant_table (KInt 0) 1 = Some NaN.
Proof. vm_compute. repeat split; reflexivity. Qed.


(** ** Mutual information *)

Lemma labels_length tc :
  List.length (labels tc) = List.length (fx_columns tc).
Proof.
  destruct tc as [df|n cols]; simpl.
  - rewrite !length_map. reflexivity.
  - rewrite length_map, length_seq. reflexivity.
Qed.

Lemma labels_nth tc j col :
  nth_error (fx_columns tc) j = Some col ->
  exists k, nth_error (labels tc) j = Some k.
Proof.
  intros H. destruct (nth_error (labels tc) j) as [k|] eqn:E; [eauto|].
  apply nth_error_None in E. rewrite labels_length in E.
  apply nth_error_None in E. congruence.
Qed.

(** C9. For a member whose mean rate is strictly positive, the value
    returned with [bitssecond=False] is the value returned with
    [bitssecond=True] divided by the mean rate of the member. *)
Theorem bits_per_event_is_bits_per_second_over_rate log2_pos tc feature ep
    minmax occupancy j col :
  information_occupancy tc feature ep minmax = Ok occupancy ->
  nth_error (fx_columns tc) j = Some col ->
  ltb (Fin 0) (mean_rate occupancy col) = true ->
  exists k per_second per_second_table per_event_table,
    compute_mutual_information_1d log2_pos tc feature ep minmax true
    = Ok per_second_table
    /\ compute_mutual_information_1d log2_pos tc feature ep minmax false
       = Ok per_event_table
    /\ nth_error per_second_table j = Some (k, per_second)
    /\ nth_error per_event_table j
       = Some (k, (per_second / mean_rate occupancy col)%np).
Proof.
  intros Ho Hcol _. destruct (labels_nth _ _ _ Hcol) as [k Hk].
  exists k, (bits_per_second log2_pos occupancy col).
  unfold compute_mutual_information_1d. rewrite Ho. simpl.
  do 2 eexists. split; [reflexivity|]. split; [reflexivity|].
  rewrite !nth_error_combine, Hk, nth_error_map2, !nth_error_map, Hcol.
  split; reflexivity.
Qed.

Lemma mul_zero_l x p : is_zero x = true -> zero_or_nan (x * p)%np.
Proof.
  intros Hx. destruct p as [q| |s|].
  - left. apply mul_zero_finite; [exact Hx|reflexivity].
  - left. apply mul_zero_finite; [exact Hx|reflexivity].
  - right. destruct x; try discriminate; unfold mul; cbn [is_zero] in *;
    rewrite ?Hx; reflexivity.
  - right. apply mul_NaN_r.
Qed.

Lemma Qzero_plus p q : Qzero p = true -> Qzero q = true -> Qzero (p + q) = true.
Proof.
  unfold Qzero. rewrite !Qeq_bool_iff. intros -> ->. reflexivity.
Qed.

Lemma add_zero_or_nan x y :
  zero_or_nan x -> zero_or_nan y -> zero_or_nan (x + y)%np.
Proof.
  intros [Hx | ->] [Hy | ->].
  - left. pose proof (is_zero_Qval _ Hx) as Qx.
    pose proof (is_zero_Qval _ Hy) as Qy.
    destruct x, y; try discriminate; unfold add; apply mk_zero;
      apply Qzero_plus; assumption.
  - right. apply add_NaN_r.
  - right. reflexivity.
  - right. reflexivity.
Qed.

Lemma fold_add_zero_or_nan l x :
  zero_or_nan x -> Forall zero_or_nan l -> zero_or_nan (fold_left add l x).
Proof.
  revert x. induction l as [|y l IH]; intros x Hx Hl; simpl.
  - exact Hx.
  - inversion Hl; subst. apply IH; [apply add_zero_or_nan|]; assumption.
Qed.

Lemma sum_zero_or_nan l : Forall zero_or_nan l -> zero_or_nan (Np.sum l).
Proof.
  destruct l as [|x l]; intros H; simpl.
  - left. reflexivity.
  - inversion H; subst. apply fold_add_zero_or_nan; assumption.
Qed.

Lemma div_zero_by_zero_or_nan x y :
  is_zero x = true -> zero_or_nan y -> (x / y)%np = NaN.
Proof.
  intros Hx [Hy | ->]; [|apply div_NaN_r].
  destruct x, y; try discriminate; unfold div; cbn [is_zero] in *;
    rewrite ?Hy, ?Hx; reflexivity.
Qed.

Lemma fold_add_NaN l : fold_left add l NaN = NaN.
Proof. induction l as [|y l IH]; simpl; [reflexivity|exact IH]. Qed.


Lemma Forall_map2 {A B C : Type} (P : C -> Prop) (f : A -> B -> C) l l' :
  (forall a b, In a l -> In b l' -> P (f a b)) ->
  Forall P (Np.map2 f l l').
Proof.
  intros H. unfold Np.map2. apply Forall_forall. intros c Hc.
  apply in_map_iff in Hc. destruct Hc as [[a b] [<- Hin]].
  apply H; [eapply in_combine_l|eapply in_combine_r]; exact Hin.
Qed.


(** The mean rate of a column of zeros is a zero or NaN. *)
Lemma mean_rate_silent occupancy col :
  Forall (fun v => is_zero v = true) col ->
  zero_or_nan (mean_rate occupancy col).
Proof.
  intros H. unfold mean_rate. apply sum_zero_or_nan. apply Forall_map2.
  intros a b Ha _. apply mul_zero_l.
  exact (proj1 (Forall_forall _ col) H a Ha).
Qed.

(** A sum with a NaN among its terms is NaN. *)
Lemma fold_add_NaN_in l x : In NaN l -> fold_left add l x = NaN.
Proof.
  revert x. induction l as [|y l IH]; intros x H; [contradiction|].
  simpl. destruct H as [-> | H].
  - rewrite add_NaN_r. apply fold_add_NaN.
  - apply IH. exact H.
Qed.

Lemma sum_NaN_in l : In NaN l -> Np.sum l = NaN.
Proof.
  destruct l as [|x l]; intros H; [contradiction|]. simpl.
  destruct H as [-> | H]; [apply fold_add_NaN | apply fold_add_NaN_in; exact H].
Qed.

Lemma map2_map_same {A B C D : Type} (h : B -> C -> D) (f : A -> B)
    (g : A -> C) l :
  Np.map2 h (map f l) (map g l) = map (fun a => h (f a) (g a)) l.
Proof.
  unfold Np.map2. induction l as [|a l IH]; [reflexivity|].
  simpl. rewrite IH. reflexivity.
Qed.

(** What a successful call of the information function went through: the
    edges, the occupancy counts of the samples inside [ep], and the
    statistic of every column. *)
Lemma compute_mutual_information_1d_inv log2_pos tc feature ep minmax
    bitssecond table :
  compute_mutual_information_1d log2_pos tc feature ep minmax bitssecond
  = Ok table ->
  exists bins counts,
    edges feature (Z.of_nat (shape0 tc) + 1) minmax = Ok bins
    /\ Np.histogram (values (restrict feature ep)) bins = Ok counts
    /\ table
       = combine (labels tc)
           (map (spec_information log2_pos bitssecond (normalize counts))
              (fx_columns tc)).
Proof.
  unfold compute_mutual_information_1d, information_occupancy. intros H.
  inv_bind H. rename a into p. inv_bind Ha. rename a into bins.
  inv_bind Ha. rename a into counts. inversion Ha; subst p. clear Ha.
  exists bins, counts. split; [assumption|]. split; [assumption|].
  assert (Hs : forall col,
             bits_per_second log2_pos (normalize counts) col
             = spec_information log2_pos true (normalize counts) col).
  { intros col. unfold bits_per_second, spec_information, log_ratio,
      mean_rate, zero_if_infinite. rewrite !map_map. reflexivity. }
  assert (He : forall col,
             (bits_per_second log2_pos (normalize counts) col
              / mean_rate (normalize counts) col)%np
             = spec_information log2_pos false (normalize counts) col).
  { intros col. rewrite Hs. reflexivity. }
  destruct bitssecond; inversion H; f_equal.
  - apply map_ext. exact Hs.
  - rewrite map2_map_same. apply map_ext. exact He.
Qed.

(** C3, amended. The statistic of every column is the weighted sum in
    which the infinite values of the log2 ratio, and only they, are
    replaced by 0: a NaN log2 ratio stays and makes the statistic NaN.  So
    a column of zeros, over at least one bin, gets NaN, in bits per second
    and in bits per event. *)
Theorem information_suppresses_infinities_only log2_pos tc feature ep minmax
    bitssecond table :
  compute_mutual_information_1d log2_pos tc feature ep minmax bitssecond
  = Ok table ->
  exists bins counts,
    edges feature (Z.of_nat (shape0 tc) + 1) minmax = Ok bins
    /\ Np.histogram (values (restrict feature ep)) bins = Ok counts
    /\ forall j col,
         nth_error (fx_columns tc) j = Some col ->
         let p := normalize counts in
         let fr := Np.sum (Np.map2 mul col p) in
         let logfx :=
           map (fun v => if isinf (log2 log2_pos (v / fr)%np) then Fin 0
                         else log2 log2_pos (v / fr)%np) col in
         let SI := Np.sum (Np.map2 mul (Np.map2 mul p col) logfx) in
         exists k,
           nth_error (labels tc) j = Some k
           /\ nth_error table j
              = Some (k, if bitssecond then SI else (SI / fr)%np)
           /\ ((exists i v share,
                  nth_error col i = Some v /\ nth_error p i = Some share
                  /\ isnan (log2 log2_pos (v / fr)%np) = true) ->
               nth_error table j = Some (k, NaN))
           /\ (col <> [] -> counts <> [] ->
               Forall (fun v => is_zero v = true) col ->
               nth_error table j = Some (k, NaN)).
Proof.
  intros H.
  destruct (compute_mutual_information_1d_inv _ _ _ _ _ _ _ H)
    as (bins & counts & He & Hh & Ht).
  exists bins, counts. split; [exact He|]. split; [exact Hh|].
  intros j col Hcol p fr logfx SI.
  destruct (labels_nth _ _ _ Hcol) as [k Hk]. exists k.
  assert (Hj : nth_error table j
               = Some (k, if bitssecond then SI else (SI / fr)%np)).
  { rewrite Ht, nth_error_combine, Hk, nth_error_map, Hcol.
    reflexivity. }
  assert (Hnan : (exists i v share,
                    nth_error col i = Some v /\ nth_error p i = Some share
                    /\ isnan (log2 log2_pos (v / fr)%np) = true) ->
                 nth_error table j = Some (k, NaN)).
  { intros (i & v & share & Hv & Hs & Hl).
    assert (HSI : SI = NaN).
    { apply sum_NaN_in. apply (nth_error_In _ i).
      rewrite nth_error_map2, nth_error_map2, Hs, Hv.
      unfold logfx. rewrite nth_error_map, Hv. cbn [option_map].
      destruct (log2 log2_pos (v / fr)%np); try discriminate.
      cbn [isinf]. rewrite mul_NaN_r. reflexivity. }
    rewrite Hj, HSI. destruct bitssecond; reflexivity. }
  split; [exact Hk|]. split; [exact Hj|]. split; [exact Hnan|].
  intros Hne Hc Hz. apply Hnan.
  destruct col as [|v col']; [contradiction|].
  destruct counts as [|c counts']; [contradiction|].
  exists 0%nat, v. eexists. split; [reflexivity|]. split; [reflexivity|].
  assert (Hfr : zero_or_nan fr).
  { apply (mean_rate_silent p (v :: col')). exact Hz. }
  inversion Hz as [|? ? Hv _]; subst.
  rewrite (div_zero_by_zero_or_nan v fr Hv Hfr). reflexivity.
Qed.

(** ** The information of the small session *)

Lemma bits_per_event_witness :
  information_occupancy burst_tuning small_feature small_ep None
  = Ok small_occupancy
  /\ ltb (Fin 0) (mean_rate small_occupancy [Fin 4; Fin 0]) = true
  /\ exists k per_second per_second_table per_event_table,
       compute_mutual_information_1d log2_floor burst_tuning small_feature
         small_ep None true = Ok per_second_table
       /\ compute_mutual_information_1d log2_floor burst_tuning small_feature
            small_ep None false = Ok per_event_table
       /\ nth_error per_second_table 0 = Some (k, per_second)
       /\ nth_error per_event_table 0
          = Some (k, (per_second / mean_rate small_occupancy [Fin 4; Fin 0])%np).
Proof.
  assert (H1 : information_occupancy burst_tuning small_feature small_ep None
               = Ok small_occupancy) by (vm_compute; reflexivity).
  assert (H2 : ltb (Fin 0) (mean_rate small_occupancy [Fin 4; Fin 0]) = true)
    by (vm_compute; reflexivity).
  split; [exact H1|]. split; [exact H2|].
  apply (bits_per_event_is_bits_per_second_over_rate log2_floor burst_tuning
           small_feature small_ep None small_occupancy 0 [Fin 4; Fin 0]
           H1 Logic.eq_refl H2).
Defined.

(** The member that fires in the first bin only carries 2 bits per second
    and, at a mean rate of 2, 1 bit per event. *)
Lemma burst_information :
  compute_mutual_information_1d log2_floor burst_tuning small_feature
    small_ep None true = Ok [(KInt 0, Fin 2)]
  /\ compute_mutual_information_1d log2_floor burst_tuning small_feature
       small_ep None false = Ok [(KInt 0, Fin 1)].
Proof. vm_compute. split; reflexivity. Qed.

(** C3, as stated, fails on a column of zeros: the mean rate is 0, the
    ratio 0/0 and its log2 are NaN, NaN is not infinite and stays, and the
    statistic is NaN. *)
Lemma silent_member_information_is_nan :
  information_occupancy silent_tuning small_feature small_ep None
  = Ok small_occupancy
  /\ mean_rate small_occupancy [Fin 0; Fin 0] = Fin 0
  /\ (Fin 0 / Fin 0)%np = NaN
  /\ log2 log2_floor NaN = NaN
  /\ isinf NaN = false
  /\ compute_mutual_information_1d log2_floor silent_tuning small_feature
       small_ep None false = Ok [(KInt 0, NaN)]
  /\ compute_mutual_information_1d log2_floor silent_tuning small_feature
       small_ep None true = Ok [(KInt 0, NaN)].
Proof. vm_compute. repeat split; reflexivity. Qed.

(** The member that fires in the first bin only: the log2 ratio of its
    second bin is minus infinity and counts as 0, so the statistic is the
    term of the first bin, 2 bits per second. *)
Lemma information_suppresses_infinities_only_witness :
  compute_mutual_information_1d log2_floor burst_tuning small_feature
    small_ep None true = Ok [(KInt 0, Fin 2)]
  /\ log2 log2_floor (Fin 0 / Fin 2)%np = Inf true
  /\ exists bins counts,
       edges small_feature 3 None = Ok bins
       /\ Np.histogram (values (restrict small_feature small_ep)) bins
          = Ok counts
       /\ nth_error [(KInt 0, Fin 2)] 0
          = Some (KInt 0,
                  Np.sum
                    (Np.map2 mul (Np.map2 mul (normalize counts) [Fin 4; Fin 0])
                       [Fin 1; Fin 0])).
Proof.
  assert (H : compute_mutual_information_1d log2_floor burst_tuning
                small_feature small_ep None true = Ok [(KInt 0, Fin 2)])
    by (vm_compute; reflexivity).
  split; [exact H|]. split; [vm_compute; reflexivity|].
  destruct (information_suppresses_infinities_only log2_floor burst_tuning
              small_feature small_ep None true _ H)
    as (bins & counts & He & Hh & Hcols).
  exists bins, counts. split; [exact He|]. split; [exact Hh|].
  destruct (Hcols 0%nat [Fin 4; Fin 0] Logic.eq_refl)
    as (k & Hk & Hj & _).
  inversion Hk; subst k. rewrite Hj. clear Hj Hcols.
  assert (Eb : bins = small_edges).
  { assert (E : edges small_feature 3 None = Ok small_edges)
      by (vm_compute; reflexivity).
    change (Z.of_nat (shape0 burst_tuning) + 1) with 3 in He.
    rewrite E in He. inversion He. reflexivity. }
  subst bins.
  assert (Ec : counts = [1; 1]).
  { assert (E : Np.histogram (values (restrict small_feature small_ep))
                  small_edges = Ok [1; 1]) by (vm_compute; reflexivity).
    rewrite E in Hh. inversion Hh. reflexivity. }
  subst counts. vm_compute. reflexivity.
Defined.

(** ** The 2-D tuning curves, step by step *)

Lemma for_each_prefix {A S : Type} (body : S -> A -> result S)
    (I : list A -> S -> Prop) xs s s' :
  for_each xs s body = Ok s' ->
  I [] s ->
  (forall done x rest s1 s2,
     xs = (done ++ x :: rest)%list -> I done s1 -> body s1 x = Ok s2 ->
     I (done ++ [x])%list s2) ->
  I xs s'.
Proof.
  intros H H0 Hstep.
  assert (G : forall rest pre s0,
             (pre ++ rest)%list = xs -> for_each rest s0 body = Ok s' ->
             I pre s0 -> I xs s').
  { induction rest as [|x rest IH]; intros pre s0 Hxs Hrun Hpre.
    - simpl in Hrun. inversion Hrun; subst. rewrite app_nil_r.
      exact Hpre.
    - simpl in Hrun. inv_bind Hrun.
      apply (IH (pre ++ [x])%list a).
      + rewrite <- app_assoc. exact Hxs.
      + exact Hrun.
      + apply (Hstep pre x rest s0 a); auto. }
  apply (G xs [] s); auto.
Qed.

Lemma two_columns (feature : TsdFrame) :
  List.length (channels feature) = 2%nat ->
  exists c0 t0 c1 t1, channels feature = [(c0, t0); (c1, t1)].
Proof.
  destruct (channels feature) as [|[c0 t0] [|[c1 t1] [|? ?]]];
    try discriminate. intros _. eauto.
Qed.

(** What a successful call went through. *)
Lemma compute_2d_inv series value_from new_TsGroup
    (group : group_arg series) feature ep nb_bins minmax tc xy :
  compute_2d_tuning_curves series value_from new_TsGroup group feature ep
    nb_bins minmax = Ok (tc, xy) ->
  NoDup (columns feature) ->
  exists c0 c1 b0 b1 occupancy,
    columns feature = [c0; c1]
    /\ c0 <> c1
    /\ channel_edges feature nb_bins minmax 0 c0 = Ok b0
    /\ channel_edges feature nb_bins minmax 1 c1 = Ok b1
    /\ Np.histogram2d (values (channel feature c0))
         (values (channel feature c1)) b0 b1 = Ok occupancy
    /\ for_each (keys series (as_TsGroup series new_TsGroup group ep)) []
         (tuning_curve_2d
            [(c0, group_value_from series value_from
                    (as_TsGroup series new_TsGroup group ep)
                    (channel feature c0) ep);
             (c1, group_value_from series value_from
                    (as_TsGroup series new_TsGroup group ep)
                    (channel feature c1) ep)]
            [(c0, b0); (c1, b1)] [c0; c1] occupancy (frame_rate feature))
       = Ok tc
    /\ xy = [centers b0; centers b1].
Proof.
  unfold compute_2d_tuning_curves. intros H Hnd.
  set (g := as_TsGroup series new_TsGroup group ep) in *.
  destruct (Nat.eqb (List.length (channels feature)) 2) eqn:E;
    [|discriminate]. simpl in H. apply Nat.eqb_eq in E.
  destruct (two_columns feature E) as (c0 & t0 & c1 & t1 & Hch).
  assert (Hcols : columns feature = [c0; c1])
    by (unfold columns; rewrite Hch; reflexivity).
  rewrite Hcols in *.
  assert (Hne : c0 <> c1).
  { inversion Hnd as [|? ? Hnot _]; subst. intros ->. apply Hnot.
    left. reflexivity. }
  assert (Hneb : String.eqb c1 c0 = false).
  { apply String.eqb_neq. congruence. }
  exists c0, c1.
  inv_bind H. rename a into st. simpl in Ha.
  unfold channel_loop at 1 in Ha. simpl in Ha.
  inv_bind Ha. rename a into st1. inv_bind Ha0. rename a into b0.
  inversion Ha0; subst st1. clear Ha0.
  unfold channel_loop in Ha. simpl in Ha. rewrite Hneb in Ha.
  inv_bind Ha. rename a into st2. inv_bind Ha0. rename a into b1.
  inversion Ha0; subst st2. clear Ha0. inversion Ha; subst st. clear Ha.
  simpl in H. unfold getitem in H. simpl in H.
  rewrite String.eqb_refl, Hneb, String.eqb_refl in H. simpl in H.
  inv_bind H. rename a into occ. inv_bind H. rename a into tc'.
  inversion H; subst. exists b0, b1, occ. repeat split; auto.
Qed.

(** One turn of the loop over the members. *)
Lemma tuning_curve_2d_inv c0 c1 gv0 gv1 b0 b1 occupancy r tc n tc' :
  c0 <> c1 ->
  tuning_curve_2d [(c0, gv0); (c1, gv1)] [(c0, b0); (c1, b1)] [c0; c1]
    occupancy r tc n = Ok tc' ->
  exists x y count,
    getitem key_eqb gv0 n = Ok x
    /\ getitem key_eqb gv1 n = Ok y
    /\ Np.histogram2d x y b0 b1 = Ok count
    /\ tc' = dict_set key_eqb n (array_2d count occupancy r) tc.
Proof.
  intros Hne H.
  assert (Hneb : String.eqb c1 c0 = false).
  { apply String.eqb_neq. congruence. }
  unfold tuning_curve_2d in H. simpl in H. unfold getitem at 1 2 5 6 in H.
  simpl in H. rewrite String.eqb_refl, Hneb, String.eqb_refl in H.
  simpl in H. inv_bind H. rename a into x. inv_bind H. rename a into y.
  inv_bind H. rename a into count. inversion H.
  exists x, y, count. auto.
Qed.

(** ** The 2-D histogram *)

Lemma bin_numbers_edges edges vs ns :
  Np.bin_numbers edges vs = Ok ns -> edges <> [].
Proof.
  destruct vs as [|v vs]; simpl.
  - destruct edges; [discriminate|]. intros _. discriminate.
  - unfold Np.bin_number. destruct edges; [discriminate|].
    intros _. discriminate.
Qed.

Lemma histogram2d_inv x y bx by_ h :
  Np.histogram2d x y bx by_ = Ok h ->
  bx <> [] /\ by_ <> []
  /\ exists nxy,
       h = map (fun i =>
                  map (fun j =>
                         of_Z (Np.count
                                 (fun p => (fst p =? Z.of_nat i)
                                           && (snd p =? Z.of_nat j)) nxy))
                      (seq 1 (List.length by_ - 1)))
               (seq 1 (List.length bx - 1)).
Proof.
  unfold Np.histogram2d. intros H.
  destruct (negb _); [discriminate|].
  destruct (Np.not_monotonic bx); [discriminate|].
  destruct (Np.not_monotonic by_); [discriminate|].
  inv_bind H. rename a into nx. inv_bind H. rename a into ny.
  inversion H.
  split; [eapply bin_numbers_edges; eassumption|].
  split; [eapply bin_numbers_edges; eassumption|].
  exists (combine nx ny). reflexivity.
Qed.

Lemma histogram2d_shape x y bx by_ h :
  Np.histogram2d x y bx by_ = Ok h ->
  has_shape h (List.length bx - 1) (List.length by_ - 1).
Proof.
  intros H. destruct (histogram2d_inv _ _ _ _ _ H) as (_ & _ & nxy & ->).
  split.
  - rewrite length_map, length_seq. reflexivity.
  - apply Forall_forall. intros row Hrow. apply in_map_iff in Hrow.
    destruct Hrow as [i [<- _]]. rewrite length_map, length_seq.
    reflexivity.
Qed.

(** Every cell of a 2-D histogram is a count. *)
Lemma histogram2d_cell x y bx by_ h i j m :
  Np.histogram2d x y bx by_ = Ok h ->
  cell2 h i j = Some m -> exists z, 0 <= z /\ m = of_Z z.
Proof.
  intros H. destruct (histogram2d_inv _ _ _ _ _ H) as (_ & _ & nxy & ->).
  unfold cell2. rewrite nth_error_map.
  destruct (nth_error (seq 1 _) i) as [i'|]; [|discriminate]. simpl.
  rewrite nth_error_map.
  destruct (nth_error (seq 1 _) j) as [j'|]; [|discriminate]. simpl.
  intros E. inversion E.
  exists (Np.count (fun p => (fst p =? Z.of_nat i') && (snd p =? Z.of_nat j'))
            nxy).
  split; [apply count_nonneg|reflexivity].
Qed.

Lemma has_shape_cell a rows cols i j :
  has_shape a rows cols -> (i < rows)%nat -> (j < cols)%nat ->
  exists c, cell2 a i j = Some c.
Proof.
  intros [Hl Hr] Hi Hj. unfold cell2.
  destruct (nth_error a i) as [row|] eqn:E.
  - assert (Hlen : List.length row = cols).
    { apply (proj1 (Forall_forall _ a) Hr). eapply nth_error_In. exact E. }
    destruct (nth_error row j) as [c|] eqn:Ec; [eauto|].
    apply nth_error_None in Ec. lia.
  - apply nth_error_None in E. lia.
Qed.

Lemma cell_has_shape a rows cols i j c :
  has_shape a rows cols -> cell2 a i j = Some c ->
  (i < rows)%nat /\ (j < cols)%nat.
Proof.
  intros [Hl Hr]. unfold cell2.
  destruct (nth_error a i) as [row|] eqn:E; [|discriminate].
  intros Hc.
  assert (Hlen : List.length row = cols).
  { apply (proj1 (Forall_forall _ a) Hr). eapply nth_error_In. exact E. }
  split.
  - rewrite <- Hl. apply nth_error_Some. congruence.
  - rewrite <- Hlen. apply nth_error_Some. congruence.
Qed.

Lemma cell2_array_2d count occupancy r i j :
  cell2 (array_2d count occupancy r) i j =
  match cell2 count i j, cell2 occupancy i j with
  | Some m, Some o => Some (m / o * r)%np
  | _, _ => None
  end.
Proof.
  unfold cell2, array_2d. rewrite nth_error_map, nth_error_map2.
  destruct (nth_error count i) as [crow|], (nth_error occupancy i) as [orow|];
    simpl; try reflexivity.
  - rewrite nth_error_map, nth_error_map2.
    destruct (nth_error crow j), (nth_error orow j); reflexivity.
  - destruct (nth_error crow j); reflexivity.
Qed.

Lemma array_2d_shape count occupancy r rows cols :
  has_shape count rows cols -> has_shape occupancy rows cols ->
  has_shape (array_2d count occupancy r) rows cols.
Proof.
  intros [Hc Hcr] [Ho Hor]. unfold array_2d. split.
  - rewrite length_map, map2_length. lia.
  - apply Forall_forall. intros row Hrow. apply in_map_iff in Hrow.
    destruct Hrow as [row' [<- Hrow']]. rewrite length_map.
    unfold Np.map2 in Hrow'. apply in_map_iff in Hrow'.
    destruct Hrow' as [[cr or_] [<- Hin]]. cbn [fst snd].
    rewrite length_map, length_combine.
    rewrite (proj1 (Forall_forall _ count) Hcr cr
               (in_combine_l _ _ _ _ Hin)).
    rewrite (proj1 (Forall_forall _ occupancy) Hor or_
               (in_combine_r _ _ _ _ Hin)).
    lia.
Qed.

(** A count over a zero is NaN or an infinity, and stays so when it is
    multiplied by the rate. *)
Lemma mul_not_finite x r : is_finite x = false -> is_finite (x * r)%np = false.
Proof.
  destruct x as [q| |s|]; try discriminate; intros _.
  - destruct r as [q| |t|]; try reflexivity.
    + unfold mul. destruct (is_zero (Fin q)); reflexivity.
  - destruct r; reflexivity.
Qed.

Lemma count_over_zero z o :
  0 <= z -> is_zero o = true ->
  is_finite (of_Z z / o)%np = false
  /\ (z = 0 -> (of_Z z / o)%np = NaN).
Proof.
  intros Hz Ho.
  destruct o as [q| | |]; try discriminate; unfold of_Z, div;
    cbn [is_zero] in *; rewrite ?Ho.
  - split.
    + destruct (Qzero (round (inject_Z z))); reflexivity.
    + intros ->. reflexivity.
  - split.
    + destruct (Qzero (round (inject_Z z))); reflexivity.
    + intros ->. reflexivity.
Qed.

Lemma lookup_group_value series value_from (group : TsGroup series)
    feature ep n s :
  NoDup (keys series group) -> In (n, s) group ->
  lookup key_eqb n (group_value_from series value_from group feature ep)
  = Some (value_from s feature ep).
Proof.
  intros Hnd Hin. apply (lookup_nodup key_eqb key_eqb_eq).
  - rewrite group_value_keys. exact Hnd.
  - unfold group_value_from. apply in_map_iff. exists (n, s). auto.
Qed.

(** ** The arrays of the 2-D tuning curves *)

Lemma getitem_ok {K V : Type} (eq : K -> K -> bool) (d : list (K * V)) k v :
  getitem eq d k = Ok v <-> lookup eq k d = Some v.
Proof.
  unfold getitem. destruct (lookup eq k d); split; intros H;
    try discriminate; inversion H; reflexivity.
Qed.

Lemma channel_edges_length feature nb_bins minmax i c bins :
  channel_edges feature nb_bins minmax i c = Ok bins ->
  List.length bins = Z.to_nat nb_bins.
Proof.
  unfold channel_edges. destruct minmax as [mm|].
  - intros H. inv_bind H. inv_bind H. eapply linspace_length. exact H.
  - apply linspace_length.
Qed.

(** The entries the loop over the members leaves in [tc]. *)
Lemma loop_2d_entries c0 c1 gv0 gv1 b0 b1 occupancy r ks tc :
  c0 <> c1 ->
  for_each ks []
    (tuning_curve_2d [(c0, gv0); (c1, gv1)] [(c0, b0); (c1, b1)] [c0; c1]
       occupancy r) = Ok tc ->
  forall n, In n ks ->
    exists x y count,
      lookup key_eqb n gv0 = Some x
      /\ lookup key_eqb n gv1 = Some y
      /\ Np.histogram2d x y b0 b1 = Ok count
      /\ lookup key_eqb n tc = Some (array_2d count occupancy r).
Proof.
  intros Hne H.
  apply (for_each_prefix _
           (fun done tc =>
              forall n, In n done ->
                exists x y count,
                  lookup key_eqb n gv0 = Some x
                  /\ lookup key_eqb n gv1 = Some y
                  /\ Np.histogram2d x y b0 b1 = Ok count
                  /\ lookup key_eqb n tc = Some (array_2d count occupancy r))
           _ _ _ H).
  - intros n [].
  - intros done k rest s1 s2 _ IH Hbody n Hn.
    destruct (tuning_curve_2d_inv _ _ _ _ _ _ _ _ _ _ _ Hne Hbody)
      as (x & y & count & Hx & Hy & Hc & ->).
    rewrite (lookup_dict_set key_eqb key_eqb_eq).
    destruct (key_eqb n k) eqn:E.
    + apply key_eqb_eq in E. subst k. exists x, y, count.
      apply getitem_ok in Hx. apply getitem_ok in Hy. auto.
    + apply in_app_or in Hn. destruct Hn as [Hn|[Hn|[]]].
      * apply IH. exact Hn.
      * subst k. rewrite (eq_refl_true key_eqb key_eqb_eq) in E.
        discriminate.
Qed.

(** The keys and the shapes the loop over the members leaves in [tc]. *)
Lemma loop_2d_shape c0 c1 gv0 gv1 b0 b1 occupancy r ks tc :
  c0 <> c1 -> NoDup ks ->
  has_shape occupancy (List.length b0 - 1) (List.length b1 - 1) ->
  for_each ks []
    (tuning_curve_2d [(c0, gv0); (c1, gv1)] [(c0, b0); (c1, b1)] [c0; c1]
       occupancy r) = Ok tc ->
  map fst tc = ks
  /\ Forall (fun kv => has_shape (snd kv) (List.length b0 - 1)
                         (List.length b1 - 1)) tc.
Proof.
  intros Hne Hnd Hocc H.
  apply (for_each_prefix _
           (fun done tc =>
              map fst tc = done
              /\ Forall (fun kv => has_shape (snd kv) (List.length b0 - 1)
                                     (List.length b1 - 1)) tc)
           _ _ _ H).
  - split; [reflexivity|constructor].
  - intros done k rest s1 s2 Hks [IHk IHs] Hbody.
    destruct (tuning_curve_2d_inv _ _ _ _ _ _ _ _ _ _ _ Hne Hbody)
      as (x & y & count & _ & _ & Hc & ->).
    split.
    + rewrite (keys_dict_set_new key_eqb key_eqb_eq); [congruence|].
      rewrite IHk. rewrite Hks in Hnd. apply NoDup_remove_2 in Hnd.
      intros Hin. apply Hnd. apply in_or_app. left. exact Hin.
    + apply dict_set_Forall; [exact IHs|]. simpl.
      apply array_2d_shape; [|exact Hocc].
      eapply histogram2d_shape. exact Hc.
Qed.

(** C7. A call that returns gives, for each identifier of the group in
    order, an array of [nb_bins - 1] rows of [nb_bins - 1] cells, and two
    arrays of [nb_bins - 1] bin centers, one per channel. *)
Theorem result_shape_2d series value_from new_TsGroup
    (group : group_arg series) feature ep nb_bins minmax tc xy :
  compute_2d_tuning_curves series value_from new_TsGroup group feature ep
    nb_bins minmax = Ok (tc, xy) ->
  NoDup (columns feature) ->
  NoDup (keys series (as_TsGroup series new_TsGroup group ep)) ->
  map fst tc = keys series (as_TsGroup series new_TsGroup group ep)
  /\ Forall (fun kv => has_shape (snd kv) (Z.to_nat (nb_bins - 1))
                         (Z.to_nat (nb_bins - 1))) tc
  /\ exists c0 c1 b0 b1,
       columns feature = [c0; c1]
       /\ channel_edges feature nb_bins minmax 0 c0 = Ok b0
       /\ channel_edges feature nb_bins minmax 1 c1 = Ok b1
       /\ xy = [centers b0; centers b1]
       /\ List.length (centers b0) = Z.to_nat (nb_bins - 1)
       /\ List.length (centers b1) = Z.to_nat (nb_bins - 1).
Proof.
  intros H Hcols Hkeys.
  destruct (compute_2d_inv _ _ _ _ _ _ _ _ _ _ H Hcols)
    as (c0 & c1 & b0 & b1 & occ & Hc & Hne & He0 & He1 & Ho & Hloop & Hxy).
  pose proof (channel_edges_length _ _ _ _ _ _ He0) as L0.
  pose proof (channel_edges_length _ _ _ _ _ _ He1) as L1.
  assert (R0 : (List.length b0 - 1)%nat = Z.to_nat (nb_bins - 1)) by lia.
  assert (R1 : (List.length b1 - 1)%nat = Z.to_nat (nb_bins - 1)) by lia.
  destruct (loop_2d_shape _ _ _ _ _ _ _ _ _ _ Hne Hkeys
              (histogram2d_shape _ _ _ _ _ Ho) Hloop) as [Hk Hs].
  rewrite R0, R1 in Hs.
  split; [exact Hk|]. split; [exact Hs|].
  exists c0, c1, b0, b1. rewrite !centers_length. auto 10.
Qed.

(** C8. The 2-D function does not fill the unvisited bins: where the
    occupancy is zero, the cell of every member is not finite, and it is
    NaN when the member has no value in the bin. *)
Theorem unvisited_bins_2d_are_not_finite series value_from new_TsGroup
    (group : group_arg series) feature ep nb_bins minmax tc xy n s :
  compute_2d_tuning_curves series value_from new_TsGroup group feature ep
    nb_bins minmax = Ok (tc, xy) ->
  NoDup (columns feature) ->
  NoDup (keys series (as_TsGroup series new_TsGroup group ep)) ->
  In (n, s) (as_TsGroup series new_TsGroup group ep) ->
  exists c0 c1 b0 b1 occupancy count arr,
    columns feature = [c0; c1]
    /\ channel_edges feature nb_bins minmax 0 c0 = Ok b0
    /\ channel_edges feature nb_bins minmax 1 c1 = Ok b1
    /\ Np.histogram2d (values (channel feature c0))
         (values (channel feature c1)) b0 b1 = Ok occupancy
    /\ Np.histogram2d (value_from s (channel feature c0) ep)
         (value_from s (channel feature c1) ep) b0 b1 = Ok count
    /\ lookup key_eqb n tc = Some arr
    /\ forall i j o,
         cell2 occupancy i j = Some o -> is_zero o = true ->
         exists m c,
           cell2 count i j = Some m
           /\ cell2 arr i j = Some c
           /\ is_finite c = false
           /\ (is_zero m = true -> c = NaN).
Proof.
  intros H Hcols Hkeys Hin.
  destruct (compute_2d_inv _ _ _ _ _ _ _ _ _ _ H Hcols)
    as (c0 & c1 & b0 & b1 & occ & Hc & Hne & He0 & He1 & Ho & Hloop & Hxy).
  assert (Hn : In n (keys series (as_TsGroup series new_TsGroup group ep))).
  { unfold keys. apply in_map_iff. exists (n, s). auto. }
  destruct (loop_2d_entries _ _ _ _ _ _ _ _ _ _ Hne Hloop n Hn)
    as (x & y & count & Hx & Hy & Hcount & Harr).
  rewrite (lookup_group_value _ _ _ _ _ _ _ Hkeys Hin) in Hx.
  rewrite (lookup_group_value _ _ _ _ _ _ _ Hkeys Hin) in Hy.
  inversion Hx; subst x. inversion Hy; subst y.
  exists c0, c1, b0, b1, occ, count, (array_2d count occ (frame_rate feature)).
  repeat (split; [assumption|]).
  intros i j o Hcell Hz.
  destruct (cell_has_shape _ _ _ _ _ _ (histogram2d_shape _ _ _ _ _ Ho) Hcell)
    as [Hi Hj].
  destruct (has_shape_cell _ _ _ i j (histogram2d_shape _ _ _ _ _ Hcount)
              Hi Hj) as [m Hm].
  destruct (histogram2d_cell _ _ _ _ _ _ _ _ Hcount Hm) as [z [Hz0 ->]].
  destruct (count_over_zero z o Hz0 Hz) as [Hnf Hnan].
  exists (of_Z z), (of_Z z / o * frame_rate feature)%np.
  split; [exact Hm|]. split; [rewrite cell2_array_2d, Hm, Hcell; reflexivity|].
  split; [apply mul_not_finite; exact Hnf|].
  intros Hzero. apply of_Z_zero in Hzero. rewrite (Hnan Hzero).
  reflexivity.
Qed.

(** ** Where the edges start and end *)










(** ** The least and the greatest sample *)








(** ** Which exceptions *)

Lemma no_runtime_bind {A B : Type} (c : result A) (k : A -> result B) :
  no_runtime_error c -> (forall a, no_runtime_error (k a)) ->
  no_runtime_error (bind c k).
Proof.
  intros Hc Hk. destruct c as [a|e]; simpl; [apply Hk|].
  intros msg E. apply (Hc msg). inversion E. reflexivity.
Qed.

Lemma no_runtime_ok {A : Type} (a : A) : no_runtime_error (Ok a).
Proof. intros msg. discriminate. Qed.

Lemma no_runtime_for_each {A S : Type} (body : S -> A -> result S) xs s :
  (forall s x, no_runtime_error (body s x)) ->
  no_runtime_error (for_each xs s body).
Proof.
  intros H. revert s. induction xs as [|x xs IH]; intros s; simpl.
  - apply no_runtime_ok.
  - apply no_runtime_bind; [apply H|intros a; apply IH].
Qed.

Lemma no_runtime_linspace start stop num :
  no_runtime_error (Np.linspace start stop num).
Proof.
  unfold Np.linspace. destruct (num <? 0); intros msg; discriminate.
Qed.

Lemma no_runtime_item {A : Type} (a : list A) i : no_runtime_error (item a i).
Proof. unfold item. destruct (nth_error a i); intros msg; discriminate. Qed.

Lemma no_runtime_getitem {K V : Type} (eq : K -> K -> bool)
    (d : list (K * V)) k :
  no_runtime_error (getitem eq d k).
Proof.
  unfold getitem. destruct (lookup eq k d); intros msg; discriminate.
Qed.

Lemma no_runtime_bin_numbers edges vs :
  no_runtime_error (Np.bin_numbers edges vs).
Proof.
  induction vs as [|v vs IH]; simpl.
  - destruct (Np.last1 edges); intros msg; discriminate.
  - apply no_runtime_bind.
    + unfold Np.bin_number. destruct (Np.last1 edges); intros msg;
        discriminate.
    + intros n. apply no_runtime_bind; [exact IH|].
      intros ns. apply no_runtime_ok.
Qed.

Lemma no_runtime_histogram2d x y bx by_ :
  no_runtime_error (Np.histogram2d x y bx by_).
Proof.
  unfold Np.histogram2d.
  destruct (negb _); [intros msg; discriminate|].
  destruct (Np.not_monotonic bx); [intros msg; discriminate|].
  destruct (Np.not_monotonic by_); [intros msg; discriminate|].
  apply no_runtime_bind; [apply no_runtime_bin_numbers|]. intros nx.
  apply no_runtime_bind; [apply no_runtime_bin_numbers|]. intros ny.
  apply no_runtime_ok.
Qed.

Lemma no_runtime_channel_edges feature nb_bins minmax i c :
  no_runtime_error (channel_edges feature nb_bins minmax i c).
Proof.
  unfold channel_edges. destruct minmax as [mm|].
  - apply no_runtime_bind; [apply no_runtime_item|]. intros lo.
    apply no_runtime_bind; [apply no_runtime_item|]. intros hi.
    apply no_runtime_linspace.
  - apply no_runtime_linspace.
Qed.

(** C5, amended. [compute_2d_tuning_curves] fails with the error of a
    feature that is not two-dimensional exactly when the feature does not
    have two channels, and with no other [RuntimeError]. *)
Theorem invalid_dimension_iff series value_from new_TsGroup
    (group : group_arg series) feature ep nb_bins minmax :
  (compute_2d_tuning_curves series value_from new_TsGroup group feature ep
     nb_bins minmax = Raise invalid_dimension
   <-> List.length (channels feature) <> 2%nat)
  /\ (forall msg,
        compute_2d_tuning_curves series value_from new_TsGroup group feature
          ep nb_bins minmax = Raise (RuntimeError msg) ->
        RuntimeError msg = invalid_dimension).
Proof.
  assert (G : List.length (channels feature) = 2%nat ->
              no_runtime_error
                (compute_2d_tuning_curves series value_from new_TsGroup
                   group feature ep nb_bins minmax)).
  { intros E. unfold compute_2d_tuning_curves.
    rewrite E. simpl negb. cbv iota.
    apply no_runtime_bind.
    - apply no_runtime_for_each. intros s x. unfold channel_loop.
      apply no_runtime_bind; [apply no_runtime_channel_edges|].
      intros b. apply no_runtime_ok.
    - intros st.
      apply no_runtime_bind; [apply no_runtime_item|]. intros c0.
      apply no_runtime_bind; [apply no_runtime_item|]. intros c1.
      apply no_runtime_bind; [apply no_runtime_getitem|]. intros b0.
      apply no_runtime_bind; [apply no_runtime_getitem|]. intros b1.
      apply no_runtime_bind; [apply no_runtime_histogram2d|]. intros occ.
      apply no_runtime_bind; [|intros tc; apply no_runtime_ok].
      apply no_runtime_for_each. intros tc n. unfold tuning_curve_2d.
      repeat (apply no_runtime_bind;
              [first [apply no_runtime_item | apply no_runtime_getitem
                     | apply no_runtime_histogram2d]
              |intros ?]).
      apply no_runtime_ok. }
  assert (F : List.length (channels feature) <> 2%nat ->
              compute_2d_tuning_curves series value_from new_TsGroup
                group feature ep nb_bins minmax = Raise invalid_dimension).
  { intros E. unfold compute_2d_tuning_curves.
    apply Nat.eqb_neq in E. rewrite E. reflexivity. }
  split; [split|].
  - intros H E. exact (G E _ H).
  - exact F.
  - intros msg H.
    destruct (Nat.eq_dec (List.length (channels feature)) 2) as [E|E].
    + exfalso. exact (G E _ H).
    + rewrite (F E) in H. inversion H. reflexivity.
Qed.

(** ** The small frame, run *)

Lemma small_frame_runs :
  compute_2d_tuning_curves (list Q) value_from_nearest new_TsGroup_events
    small_group small_frame small_ep 3 None
  = Ok (small_arrays, small_centers).
Proof. vm_compute. reflexivity. Qed.

Lemma small_columns_distinct : NoDup (columns small_frame).
Proof.
  repeat constructor; simpl; intros H; repeat destruct H as [H|H];
    try discriminate; exact H.
Qed.

Lemma small_keys_distinct :
  NoDup (keys (list Q)
           (as_TsGroup (list Q) new_TsGroup_events small_group small_ep)).
Proof. repeat constructor; simpl; tauto. Qed.

Lemma result_shape_2d_witness :
  NoDup (columns small_frame)
  /\ NoDup (keys (list Q)
             (as_TsGroup (list Q) new_TsGroup_events small_group small_ep))
  /\ map fst small_arrays
     = keys (list Q)
         (as_TsGroup (list Q) new_TsGroup_events small_group small_ep)
  /\ Forall (fun kv => has_shape (snd kv) 2 2) small_arrays.
Proof.
  assert (H : compute_2d_tuning_curves (list Q) value_from_nearest
                new_TsGroup_events small_group small_frame small_ep 3 None
              = Ok (small_arrays, small_centers))
    by (vm_compute; reflexivity).
  destruct (result_shape_2d (list Q) value_from_nearest new_TsGroup_events
              small_group small_frame small_ep 3 None small_arrays
              small_centers H small_columns_distinct small_keys_distinct)
    as (Hk & Hs & _).
  split; [exact small_columns_distinct|].
  split; [exact small_keys_distinct|].
  split; [exact Hk|exact Hs].
Defined.

Lemma unvisited_bins_2d_witness :
  NoDup (columns small_frame)
  /\ NoDup (keys (list Q)
             (as_TsGroup (list Q) new_TsGroup_events small_group small_ep))
  /\ In (KInt 0, [(1 # 10)%Q; (2 # 10)%Q; (9 # 10)%Q])
       (as_TsGroup (list Q) new_TsGroup_events small_group small_ep)
  /\ exists arr c,
       lookup key_eqb (KInt 0) small_arrays = Some arr
       /\ cell2 arr 0 1 = Some c
       /\ is_finite c = false.
Proof.
  assert (H : compute_2d_tuning_curves (list Q) value_from_nearest
                new_TsGroup_events small_group small_frame small_ep 3 None
              = Ok (small_arrays, small_centers))
    by (vm_compute; reflexivity).
  assert (Hin : In (KInt 0, [(1 # 10)%Q; (2 # 10)%Q; (9 # 10)%Q])
                  (as_TsGroup (list Q) new_TsGroup_events small_group
                     small_ep))
    by (left; reflexivity).
  split; [exact small_columns_distinct|].
  split; [exact small_keys_distinct|]. split; [exact Hin|].
  destruct (unvisited_bins_2d_are_not_finite (list Q) value_from_nearest
              new_TsGroup_events small_group small_frame small_ep 3 None
              small_arrays small_centers (KInt 0) _ H small_columns_distinct
              small_keys_distinct Hin)
    as (c0 & c1 & b0 & b1 & occ & count & arr
        & Hc & He0 & He1 & Ho & Hcount & Harr & Hcells).
  inversion Hc; subst c0 c1.
  assert (E0 : channel_edges small_frame 3 None 0 "x" = Ok small_edges)
    by (vm_compute; reflexivity).
  assert (E1 : channel_edges small_frame 3 None 1 "y" = Ok small_edges)
    by (vm_compute; reflexivity).
  rewrite E0 in He0. inversion He0; subst b0.
  rewrite E1 in He1. inversion He1; subst b1.
  assert (Eo : Np.histogram2d (values (channel small_frame "x"))
                 (values (channel small_frame "y")) small_edges small_edges
               = Ok [[Fin 1; Fin 0]; [Fin 0; Fin 1]])
    by (vm_compute; reflexivity).
  rewrite Eo in Ho. inversion Ho; subst occ.
  destruct (Hcells 0%nat 1%nat (Fin 0) Logic.eq_refl Logic.eq_refl)
    as (m & c & _ & Hcell & Hnf & _).
  exists arr, c. auto.
Defined.


(** C6, as stated, fails for a single edge: the call returns, the only
    edge of each channel is the lower bound, and the upper bound is not an
    edge. *)
Lemma single_edge_does_not_span :
  compute_2d_tuning_curves (list Q) value_from_nearest new_TsGroup_events
    small_group small_frame small_ep 1 (Some [Fin 0; Fin 3; Fin 0; Fin 3])
  = Ok ([(KInt 0, [])], [[]; []])
  /\ channel_edges small_frame 1 (Some [Fin 0; Fin 3; Fin 0; Fin 3]) 0 "x"
     = Ok [Fin 0]
  /\ channel_edges small_frame 1 (Some [Fin 0; Fin 3; Fin 0; Fin 3]) 1 "y"
     = Ok [Fin 0]
  /\ Np.last1 [Fin 0] = [Fin 0]
  /\ eqb (Fin 0) (Fin 3) = false.
Proof. vm_compute. repeat split; reflexivity. Qed.

(** Between the finite bounds -2^1023 and 2^1023 the difference overflows:
    the step is infinite, the first edge is 0 * inf + start = NaN, and the
    histogram of the 1-D function rejects the edges. *)
Lemma linspace_overflow :
  Np.linspace (Fin (- inject_Z (2 ^ 1023))) (Fin (inject_Z (2 ^ 1023))) 3
  = Ok [NaN; Inf false; Fin (inject_Z (2 ^ 1023))]
  /\ Np.linspace (Fin (- inject_Z (2 ^ 1023))) (Fin (inject_Z (2 ^ 1023))) 2
     = Ok [NaN; Fin (inject_Z (2 ^ 1023))]
  /\ compute_1d_tuning_curves (list Q) value_from_nearest new_TsGroup_events
       small_group small_feature small_ep 3
       (Some [Fin (- inject_Z (2 ^ 1023)); Fin (inject_Z (2 ^ 1023))])
     = Raise (ValueError "`bins` must increase monotonically, when an array").
Proof. vm_compute. repeat split; reflexivity. Qed.

(** C5, as stated, fails: with two channels and bounds in decreasing
    order, both tuning-curve functions throw, and the error is a
    [ValueError] of the histogram. *)
Lemma decreasing_bounds_raise :
  List.length (channels small_frame) = 2%nat
  /\ compute_2d_tuning_curves (list Q) value_from_nearest new_TsGroup_events
       small_group small_frame small_ep 3 (Some [Fin 1; Fin 0; Fin 0; Fin 1])
     = Raise (ValueError
                "`bins[0]` must be monotonically increasing when an array")
  /\ compute_1d_tuning_curves (list Q) value_from_nearest new_TsGroup_events
       small_group small_feature small_ep 3 (Some [Fin 1; Fin 0])
     = Raise (ValueError "`bins` must increase monotonically, when an array").
Proof. vm_compute. repeat split; reflexivity. Qed.

(** ** The total of a histogram *)

Lemma fold_add_from l z : fold_left Z.add l z = z + fold_left Z.add l 0.
Proof.
  revert z. induction l as [|y l IH]; intros z; simpl; [lia|].
  rewrite (IH (z + y)), (IH y). lia.
Qed.

Lemma sumZ_cons x l : Np.sumZ (x :: l) = x + Np.sumZ l.
Proof. unfold Np.sumZ. simpl. apply fold_add_from. Qed.

Lemma last1_last {A : Type} (bs : list A) d :
  bs <> [] -> Np.last1 bs = [List.last bs d].
Proof.
  induction bs as [|a [|b bs] IH]; intros H; [contradiction|reflexivity|].
  change (Np.last1 (a :: b :: bs)) with (Np.last1 (b :: bs)).
  change (List.last (a :: b :: bs) d) with (List.last (b :: bs) d).
  apply IH. discriminate.
Qed.

(** The counts add up to the cumulative count at the last edge minus the
    one at the first. *)
Lemma histogram_total a bs :
  bs <> [] ->
  forall e,
    Np.sumZ (Np.diffZ (Np.cumulative a (e :: bs)))
    = Np.searchsorted_right a (List.last bs e) - Np.searchsorted_left a e.
Proof.
  induction bs as [|e' [|e'' bs] IH]; intros H e; [contradiction| |].
  - unfold Np.sumZ. simpl. lia.
  - rewrite histogram_cons2, sumZ_cons, IH by discriminate.
    change (List.last (e' :: e'' :: bs) e) with (List.last (e'' :: bs) e).
    assert (Hl : List.last (e'' :: bs) e' = List.last (e'' :: bs) e).
    { clear. revert e''. induction bs as [|b bs IH]; intros e''; [reflexivity|].
      change (List.last (e'' :: b :: bs) e') with (List.last (b :: bs) e').
      change (List.last (e'' :: b :: bs) e) with (List.last (b :: bs) e).
      apply IH. }
    rewrite Hl. unfold upper. lia.
Qed.

(** The first edge is not above the last one. *)
Lemma first_below_last bs :
  forall e,
    Forall (fun x => is_finite x = true) (e :: bs) ->
    Np.not_monotonic (e :: bs) = false ->
    (Qval e <= Qval (List.last bs e))%Q.
Proof.
  induction bs as [|e' bs IH]; intros e Hfin Hmono.
  - simpl. apply Qle_refl.
  - rewrite not_monotonic_cons2 in Hmono. apply orb_false_iff in Hmono.
    destruct Hmono as [Hee' Hmono].
    inversion Hfin as [|? ? He Hfin']; subst.
    inversion Hfin' as [|? ? He' _]; subst.
    apply Qle_trans with (Qval e').
    + apply gtb_false_finite; assumption.
    + destruct bs as [|e'' bs]; [apply Qle_refl|].
      specialize (IH e' Hfin' Hmono).
      change (List.last (e' :: e'' :: bs) e) with (List.last (e'' :: bs) e).
      assert (Hl : List.last (e'' :: bs) e = List.last (e'' :: bs) e').
      { clear. revert e''. induction bs as [|b bs IH]; intros e'';
          [reflexivity|].
        change (List.last (e'' :: b :: bs) e) with (List.last (b :: bs) e).
        change (List.last (e'' :: b :: bs) e') with (List.last (b :: bs) e').
        apply IH. }
      rewrite Hl. exact IH.
Qed.

Lemma last_finite bs e :
  Forall (fun x => is_finite x = true) (e :: bs) ->
  is_finite (List.last bs e) = true.
Proof.
  intros H. inversion H as [|? ? He Hbs]; subst.
  destruct bs as [|b bs]; [exact He|].
  apply (proj1 (Forall_forall _ _) Hbs).
  pose proof (@app_removelast_last _ (b :: bs) e ltac:(discriminate)) as E.
  assert (Hin : In (List.last (b :: bs) e)
                  (removelast (b :: bs) ++ [List.last (b :: bs) e])%list)
    by (apply in_or_app; right; left; reflexivity).
  rewrite <- E in Hin. exact Hin.
Qed.

Lemma count_ext {A : Type} (p q : A -> bool) l :
  (forall x, p x = q x) -> Np.count p l = Np.count q l.
Proof.
  intros H. unfold Np.count. f_equal. f_equal. apply filter_ext. exact H.
Qed.

Lemma count_map {A B : Type} (f : A -> B) (p : B -> bool) l :
  Np.count p (map f l) = Np.count (fun x => p (f x)) l.
Proof.
  induction l as [|x l IH]; [reflexivity|].
  simpl map. rewrite !count_cons, IH. reflexivity.
Qed.

(** With finite edges, at least two of them, the counts add up to the
    number of samples between the first and the last edge. *)
Lemma histogram_counts_in_range a bins h :
  Forall (fun e => is_finite e = true) bins ->
  (2 <= List.length bins)%nat ->
  Np.histogram a bins = Ok h ->
  Np.sumZ h = Np.count (in_range bins) a.
Proof.
  intros Hfin Hlen H. destruct (histogram_inv _ _ _ H) as [Hmono ->].
  destruct bins as [|e [|e' bs]]; simpl in Hlen; try lia.
  rewrite histogram_total by discriminate.
  pose proof (first_below_last _ _ Hfin Hmono) as Hle.
  pose proof (last_finite _ _ Hfin) as Fl.
  inversion Hfin as [|? ? He _]; subst.
  set (hi := List.last (e' :: bs) e) in *.
  unfold Np.searchsorted_right, Np.searchsorted_left.
  rewrite (count_split (fun x => sort_lt x e)
             (fun x => negb (sort_lt hi x)) a).
  - rewrite (count_ext (in_range (e :: e' :: bs))
               (fun x => negb (sort_lt hi x) && negb (sort_lt x e))).
    + lia.
    + intros x. unfold in_range.
      rewrite (last1_last (e :: e' :: bs) e) by discriminate.
      change (List.last (e :: e' :: bs) e) with hi. apply andb_comm.
  - intros x _ Hx. apply (before_not_after e hi x He Fl); [|exact Hx].
    unfold gtb. destruct (ltb hi e) eqn:E; [|reflexivity].
    apply (ltb_finite hi e Fl He) in E. exfalso.
    apply (Qlt_irrefl (Qval e)). eapply Qle_lt_trans; eassumption.
Qed.

(** C10, amended. [compute_1d_tuning_curves] takes its occupancy from all
    the samples of the feature, [compute_mutual_information_1d] from the
    samples inside [ep]; over the same finite edges, two or more, the first
    occupancy counts more than the second as soon as a sample outside [ep]
    has its value between the first and the last edge. *)
Theorem occupancies_differ series value_from new_TsGroup
    (group : group_arg series) log2_pos feature ep nb_bins minmax tc tuning
    bitssecond information bins :
  compute_1d_tuning_curves series value_from new_TsGroup group feature ep
    nb_bins minmax = Ok tc ->
  compute_mutual_information_1d log2_pos tuning feature ep minmax bitssecond
  = Ok information ->
  Z.of_nat (shape0 tuning) + 1 = nb_bins ->
  2 <= nb_bins ->
  edges feature nb_bins minmax = Ok bins ->
  Forall (fun e => is_finite e = true) bins ->
  exists occupancy_all occupancy_ep,
    Np.histogram (values feature) bins = Ok occupancy_all
    /\ tc = fold_left (step_1d occupancy_all bins (rate feature))
              (group_value_from series value_from
                 (as_TsGroup series new_TsGroup group ep) feature ep)
              (new_DataFrame (centers bins)
                 (keys series (as_TsGroup series new_TsGroup group ep)))
    /\ Np.histogram (values (restrict feature ep)) bins = Ok occupancy_ep
    /\ information
       = combine (labels tuning)
           (map (spec_information log2_pos bitssecond
                   (normalize occupancy_ep))
              (fx_columns tuning))
    /\ ((exists s,
           In s (samples feature)
           /\ existsb (in_interval (fst s)) ep = false
           /\ in_range bins (snd s) = true) ->
        Np.sumZ occupancy_ep < Np.sumZ occupancy_all).
Proof.
  intros H1 H2 Hn Hn2 He Hfin.
  destruct (compute_1d_inv _ _ _ _ _ _ _ _ _ H1)
    as (bins' & occ & He' & Hm & Hh & Ho & Htc).
  rewrite He in He'. inversion He'; subst bins'. clear He'.
  destruct (compute_mutual_information_1d_inv _ _ _ _ _ _ _ H2)
    as (bins' & occ_ep & He' & Hh' & Hinfo).
  rewrite Hn, He in He'. inversion He'; subst bins'. clear He'.
  exists occ, occ_ep. repeat (split; [assumption|]).
  intros (s & Hin & Hout & Hrange).
  assert (Hlen : (2 <= List.length bins)%nat).
  { rewrite (edges_length _ _ _ _ He). lia. }
  rewrite (histogram_counts_in_range _ _ _ Hfin Hlen Hh).
  rewrite (histogram_counts_in_range _ _ _ Hfin Hlen Hh').
  unfold values, restrict. simpl samples. rewrite !count_map.
  apply (count_lt_filter _ _ _ s); assumption.
Qed.
(** ** Inside and outside the epoch *)

(** C10, as stated, fails when the sample outside the epoch also lies
    outside the bounds: both functions then count the same occupancy. *)
Lemma stray_sample_same_occupancy :
  In (10%Q, Fin 5) (samples stray_feature)
  /\ existsb (in_interval 10%Q) stray_ep = false
  /\ compute_1d_tuning_curves (list Q) value_from_nearest new_TsGroup_events
       small_group stray_feature stray_ep 2 (Some [Fin 0; Fin 1])
     = Ok stray_table
  /\ compute_mutual_information_1d log2_floor (TcFrame stray_table)
       stray_feature stray_ep (Some [Fin 0; Fin 1]) true
     = Ok [(KInt 0, Fin 0)]
  /\ edges stray_feature 2 (Some [Fin 0; Fin 1]) = Ok [Fin 0; Fin 1]
  /\ Np.histogram (values stray_feature) [Fin 0; Fin 1] = Ok [1]
  /\ Np.histogram (values (restrict stray_feature stray_ep)) [Fin 0; Fin 1]
     = Ok [1].
Proof.
  split; [right; left; reflexivity|]. vm_compute. repeat split; reflexivity.
Qed.

Lemma occupancies_differ_witness :
  2 <= 3
  /\ Forall (fun e => is_finite e = true) small_edges
  /\ compute_1d_tuning_curves (list Q) value_from_nearest new_TsGroup_events
       small_group small_feature half_ep 3 None = Ok half_table
  /\ compute_mutual_information_1d log2_floor (TcFrame half_table)
       small_feature half_ep None true = Ok [(KInt 0, Fin 0)]
  /\ exists occupancy_all occupancy_ep,
       Np.histogram (values small_feature) small_edges = Ok occupancy_all
       /\ Np.histogram (values (restrict small_feature half_ep)) small_edges
          = Ok occupancy_ep
       /\ Np.sumZ occupancy_ep < Np.sumZ occupancy_all.
Proof.
  assert (Hn : 2 <= 3) by lia.
  assert (Hf : Forall (fun e => is_finite e = true) small_edges)
    by (repeat constructor).
  assert (H1 : compute_1d_tuning_curves (list Q) value_from_nearest
                 new_TsGroup_events small_group small_feature half_ep 3 None
               = Ok half_table) by (vm_compute; reflexivity).
  assert (H2 : compute_mutual_information_1d log2_floor (TcFrame half_table)
                 small_feature half_ep None true = Ok [(KInt 0, Fin 0)])
    by (vm_compute; reflexivity).
  split; [exact Hn|]. split; [exact Hf|]. split; [exact H1|].
  split; [exact H2|].
  destruct (occupancies_differ (list Q) value_from_nearest new_TsGroup_events
              small_group log2_floor small_feature half_ep 3 None
              half_table (TcFrame half_table) true [(KInt 0, Fin 0)]
              small_edges H1 H2
              Logic.eq_refl Hn ltac:(vm_compute; reflexivity) Hf)
    as (occ_all & occ_ep & Ha & _ & He & _ & Hlt).
  exists occ_all, occ_ep. split; [exact Ha|]. split; [exact He|].
  apply Hlt. exists (1%Q, Fin 3).
  split; [right; left; reflexivity|]. split; reflexivity.
Defined.
(** ** When the functions return, and how they fail *)

Lemma linspace_returns start stop num :
  0 <= num -> exists l, Np.linspace start stop num = Ok l.
Proof.
  intros H. unfold Np.linspace.
  destruct (num <? 0) eqn:E; [apply Z.ltb_lt in E; lia|]. eauto.
Qed.

Lemma linspace_negative start stop num :
  num < 0 ->
  Np.linspace start stop num
  = Raise (ValueError "Number of samples must be non-negative.").
Proof.
  intros H. unfold Np.linspace. apply Z.ltb_lt in H. rewrite H. reflexivity.
Qed.

Lemma edges_bounds feature nb_bins minmax :
  edges feature nb_bins minmax
  = match bounds feature minmax with
    | Some (lo, hi) => Np.linspace lo hi nb_bins
    | None => Raise (IndexError "index out of range")
    end.
Proof.
  destruct minmax as [[|lo [|hi mm]]|]; reflexivity.
Qed.

Lemma bounds_short feature minmax :
  bounds feature minmax = None
  <-> exists mm, minmax = Some mm /\ (List.length mm < 2)%nat.
Proof.
  split.
  - destruct minmax as [[|lo [|hi mm]]|]; try discriminate; intros _;
      eexists; (split; [reflexivity|simpl; lia]).
  - intros (mm & -> & H). destruct mm as [|lo [|hi mm]]; simpl in *;
      try reflexivity; lia.
Qed.

(** The ways the edges of the 1-D functions fail. *)
Lemma edges_cases feature nb_bins minmax :
  (bounds feature minmax = None
   /\ edges feature nb_bins minmax = Raise (IndexError "index out of range"))
  \/ (bounds feature minmax <> None /\ nb_bins < 0
      /\ edges feature nb_bins minmax
         = Raise (ValueError "Number of samples must be non-negative."))
  \/ (bounds feature minmax <> None /\ 0 <= nb_bins
      /\ exists bins, edges feature nb_bins minmax = Ok bins).
Proof.
  rewrite edges_bounds. destruct (bounds feature minmax) as [[lo hi]|].
  - right. destruct (Z_lt_ge_dec nb_bins 0) as [H|H].
    + left. split; [discriminate|]. split; [exact H|].
      apply linspace_negative. exact H.
    + right. split; [discriminate|]. split; [lia|].
      apply linspace_returns. lia.
  - left. split; reflexivity.
Qed.


(** X4. With two channels and a count of edges that is not negative, the
    2-D function fails with an [IndexError] when fewer than four bounds
    are given. *)
Theorem short_bounds_raise_index_error series value_from new_TsGroup
    (group : group_arg series) feature ep nb_bins mm :
  List.length (channels feature) = 2%nat ->
  0 <= nb_bins ->
  (List.length mm < 4)%nat ->
  compute_2d_tuning_curves series value_from new_TsGroup group feature ep
    nb_bins (Some mm) = Raise (IndexError "index out of range").
Proof.
  intros Hch Hn Hlen. unfold compute_2d_tuning_curves.
  rewrite Hch. simpl negb. cbv iota.
  destruct (two_columns feature Hch) as (c0 & t0 & c1 & t1 & E).
  unfold columns. rewrite E. simpl map. unfold enumerate. simpl combine.
  simpl for_each. unfold channel_loop at 1. unfold channel_edges.
  simpl fst. simpl snd.
  destruct mm as [|m0 [|m1 [|m2 [|m3 mm]]]]; simpl in Hlen; try lia;
    try reflexivity.
  - simpl. destruct (linspace_returns m0 m1 nb_bins Hn) as [l ->]. simpl.
    unfold channel_loop. simpl. reflexivity.
  - simpl. destruct (linspace_returns m0 m1 nb_bins Hn) as [l ->]. simpl.
    unfold channel_loop. simpl. reflexivity.
Qed.

Lemma map_fst_combine {A B : Type} (l : list A) (l' : list B) :
  List.length l = List.length l' -> map fst (combine l l') = l.
Proof.
  revert l'. induction l as [|a l IH]; intros [|b l'] H; simpl in *;
    try reflexivity; try discriminate.
  f_equal. apply IH. congruence.
Qed.

(** X6. The information table has one row per column of the tuning
    curves, in order, labelled by the names of the columns of a frame and
    by 0, 1, ... for an array. *)
Theorem information_rows log2_pos tc feature ep minmax bitssecond table :
  compute_mutual_information_1d log2_pos tc feature ep minmax bitssecond
  = Ok table ->
  map fst table = labels tc
  /\ List.length table = List.length (fx_columns tc)
  /\ forall n cols,
       tc = TcArray n cols ->
       map fst table
       = map (fun i => KInt (Z.of_nat i)) (seq 0 (List.length cols)).
Proof.
  intros H. unfold compute_mutual_information_1d in H.
  inv_bind H. rename a into occ.
  assert (G : forall (vs : list np_float),
             List.length vs = List.length (fx_columns tc) ->
             map fst (combine (labels tc) vs) = labels tc
             /\ List.length (combine (labels tc) vs)
                = List.length (fx_columns tc)).
  { intros vs Hvs. pose proof (labels_length tc) as Hl. split.
    - apply map_fst_combine. congruence.
    - rewrite length_combine. lia. }
  assert (Hrows : map fst table = labels tc
                  /\ List.length table = List.length (fx_columns tc)).
  { destruct bitssecond; inversion H; apply G.
    - rewrite length_map. reflexivity.
    - rewrite map2_length, !length_map. lia. }
  destruct Hrows as [Hk Hl]. split; [exact Hk|]. split; [exact Hl|].
  intros n cols ->. exact Hk.
Qed.

(** X9. The information function fails in two cases only: fewer than two
    bounds in [minmax], with an [IndexError], and edges that decrease
    somewhere, with a [ValueError] of the histogram.  The arithmetic of
    the bins (division by zero, logarithm of zero) never makes it fail. *)
Theorem information_failures log2_pos tc feature ep minmax bitssecond :
  ((exists e,
      compute_mutual_information_1d log2_pos tc feature ep minmax bitssecond
      = Raise e)
   <-> (exists mm, minmax = Some mm /\ (List.length mm < 2)%nat)
       \/ exists bins,
            edges feature (Z.of_nat (shape0 tc) + 1) minmax = Ok bins
            /\ Np.not_monotonic bins = true)
  /\ (forall e,
        compute_mutual_information_1d log2_pos tc feature ep minmax
          bitssecond = Raise e ->
        ((exists msg, e = IndexError msg)
         <-> exists mm, minmax = Some mm /\ (List.length mm < 2)%nat)
        /\ ((exists msg, e = IndexError msg)
            \/ exists msg, e = ValueError msg)).
Proof.
  set (n := Z.of_nat (shape0 tc) + 1).
  assert (Hret : forall bins,
             edges feature n minmax = Ok bins ->
             Np.not_monotonic bins = false ->
             exists table,
               compute_mutual_information_1d log2_pos tc feature ep minmax
                 bitssecond = Ok table).
  { intros bins He Hm.
    unfold compute_mutual_information_1d, information_occupancy.
    fold n. rewrite He. simpl. rewrite (histogram_ok _ _ Hm). simpl.
    destruct bitssecond; eexists; reflexivity. }
  assert (Hbad : forall bins,
             edges feature n minmax = Ok bins ->
             Np.not_monotonic bins = true ->
             compute_mutual_information_1d log2_pos tc feature ep minmax
               bitssecond
             = Raise (ValueError
                        "`bins` must increase monotonically, when an array")).
  { intros bins He Hm.
    unfold compute_mutual_information_1d, information_occupancy.
    fold n. rewrite He. simpl. unfold Np.histogram. rewrite Hm.
    reflexivity. }
  assert (Hshort : bounds feature minmax = None ->
             compute_mutual_information_1d log2_pos tc feature ep minmax
               bitssecond = Raise (IndexError "index out of range")).
  { intros Hb.
    destruct (edges_cases feature n minmax)
      as [[_ He]|[(Hb' & _)|(Hb' & _)]]; try contradiction.
    unfold compute_mutual_information_1d, information_occupancy.
    fold n. rewrite He. reflexivity. }
  assert (Hcases : forall e,
             compute_mutual_information_1d log2_pos tc feature ep minmax
               bitssecond = Raise e ->
             (bounds feature minmax = None
              /\ e = IndexError "index out of range")
             \/ (bounds feature minmax <> None
                 /\ (exists msg, e = ValueError msg)
                 /\ exists bins,
                      edges feature n minmax = Ok bins
                      /\ Np.not_monotonic bins = true)).
  { intros e H.
    destruct (edges_cases feature n minmax)
      as [[Hb He]|[(Hb & Hn & He)|(Hb & Hn & bins & He)]].
    - left. rewrite (Hshort Hb) in H. inversion H. auto.
    - unfold n in Hn. lia.
    - right. split; [exact Hb|].
      destruct (Np.not_monotonic bins) eqn:Hm.
      + rewrite (Hbad bins He Hm) in H. inversion H.
        split; [eexists; reflexivity|exists bins; auto].
      + destruct (Hret bins He Hm) as [table Ht]. rewrite Ht in H.
        discriminate. }
  split; [split|].
  - intros [e H]. destruct (Hcases e H) as [[Hb _]|(_ & _ & Hc)].
    + left. apply (proj1 (bounds_short feature minmax)). exact Hb.
    + right. exact Hc.
  - intros [Hs|[bins [He Hm]]].
    + apply (proj2 (bounds_short feature minmax)) in Hs. eexists.
      exact (Hshort Hs).
    + eexists. exact (Hbad bins He Hm).
  - intros e H. destruct (Hcases e H) as [[Hb ->]|(Hb & [msg ->] & _)].
    + split; [|left; eexists; reflexivity].
      split; [intros _; apply (proj1 (bounds_short feature minmax)); exact Hb|].
      intros _. eexists. reflexivity.
    + split; [|right; eexists; reflexivity].
      split; [intros [msg' E]; discriminate|].
      intros Hs. apply (proj2 (bounds_short feature minmax)) in Hs.
      contradiction.
Qed.

(** ** More on the cells *)

(** X1. In the 2-D function every cell of a member, visited bin or not,
    is the member's count in the bin over the occupancy of the bin, times
    the sampling rate of the frame: nothing is replaced. *)
Theorem tuning_curve_cell_2d series value_from new_TsGroup
    (group : group_arg series) feature ep nb_bins minmax tc xy n s :
  compute_2d_tuning_curves series value_from new_TsGroup group feature ep
    nb_bins minmax = Ok (tc, xy) ->
  NoDup (columns feature) ->
  NoDup (keys series (as_TsGroup series new_TsGroup group ep)) ->
  In (n, s) (as_TsGroup series new_TsGroup group ep) ->
  exists c0 c1 b0 b1 occupancy count arr,
    columns feature = [c0; c1]
    /\ channel_edges feature nb_bins minmax 0 c0 = Ok b0
    /\ channel_edges feature nb_bins minmax 1 c1 = Ok b1
    /\ Np.histogram2d (values (channel feature c0))
         (values (channel feature c1)) b0 b1 = Ok occupancy
    /\ Np.histogram2d (value_from s (channel feature c0) ep)
         (value_from s (channel feature c1) ep) b0 b1 = Ok count
    /\ lookup key_eqb n tc = Some arr
    /\ forall i j m o,
         cell2 count i j = Some m -> cell2 occupancy i j = Some o ->
         cell2 arr i j = Some (m / o * frame_rate feature)%np.
Proof.
  intros H Hcols Hkeys Hin.
  destruct (compute_2d_inv _ _ _ _ _ _ _ _ _ _ H Hcols)
    as (c0 & c1 & b0 & b1 & occ & Hc & Hne & He0 & He1 & Ho & Hloop & Hxy).
  assert (Hn : In n (keys series (as_TsGroup series new_TsGroup group ep))).
  { unfold keys. apply in_map_iff. exists (n, s). auto. }
  destruct (loop_2d_entries _ _ _ _ _ _ _ _ _ _ Hne Hloop n Hn)
    as (x & y & count & Hx & Hy & Hcount & Harr).
  rewrite (lookup_group_value _ _ _ _ _ _ _ Hkeys Hin) in Hx.
  rewrite (lookup_group_value _ _ _ _ _ _ _ Hkeys Hin) in Hy.
  inversion Hx; subst x. inversion Hy; subst y.
  exists c0, c1, b0, b1, occ, count, (array_2d count occ (frame_rate feature)).
  repeat (split; [assumption|]).
  intros i j m o Hm Ho'. rewrite cell2_array_2d, Hm, Ho'. reflexivity.
Qed.

(** The counts of a histogram over finite edges in order are not
    negative. *)
Lemma histogram_nonneg a bins :
  Forall (fun e => is_finite e = true) bins ->
  Np.not_monotonic bins = false ->
  forall i c,
    nth_error (Np.diffZ (Np.cumulative a bins)) i = Some c -> 0 <= c.
Proof.
  induction bins as [|e bs IH]; intros Hfin Hmono i c H.
  - destruct i; discriminate.
  - destruct bs as [|e' bs].
    + destruct i; discriminate.
    + rewrite histogram_cons2 in H. rewrite not_monotonic_cons2 in Hmono.
      apply orb_false_iff in Hmono. destruct Hmono as [Hee' Hmono].
      inversion Hfin as [|? ? He Hfin']; subst.
      inversion Hfin' as [|? ? He' _]; subst.
      destruct i as [|i].
      * simpl in H. inversion H as [Hc]. clear H.
        unfold upper, Np.searchsorted_left, Np.searchsorted_right.
        destruct bs.
        -- rewrite (count_split (fun x => sort_lt x e)
                      (fun x => negb (sort_lt e' x)) a)
             by (intros x _ Hx; exact (before_not_after e e' x He He' Hee' Hx)).
           pose proof (count_nonneg
                         (fun x => negb (sort_lt e' x)
                                   && negb (sort_lt x e)) a). lia.
        -- rewrite (count_split (fun x => sort_lt x e)
                      (fun x => sort_lt x e') a)
             by (intros x _ Hx; exact (before_next e e' x He He' Hee' Hx)).
           pose proof (count_nonneg
                         (fun x => sort_lt x e' && negb (sort_lt x e)) a).
           lia.
      * simpl in H. eapply IH; eassumption.
Qed.

(** *** Values that are not negative *)

Lemma ltb_zero_false q : (0 <= q)%Q -> ltb (Fin q) (Fin 0) = false.
Proof.
  intros H. unfold ltb. cbn [Qval].
  destruct (Qcompare q 0) eqn:E; try reflexivity.
  apply Qlt_alt in E. exfalso. apply (Qlt_irrefl 0).
  eapply Qle_lt_trans; eassumption.
Qed.

Lemma Qneg_nonneg q : (0 <= q)%Q -> Qneg q = false.
Proof.
  intros H. destruct (Qneg q) eqn:E; [|reflexivity].
  apply Qneg_correct in E. exfalso. apply (Qlt_irrefl 0).
  eapply Qle_lt_trans; eassumption.
Qed.

(** The float of an exact result that is not negative is not negative:
    rounding keeps the sign, and an overflow gives plus infinity. *)
Lemma mk_not_negative q s : (0 <= q)%Q -> not_negative (mk q s).
Proof.
  intros H. unfold mk, not_negative, zero_of.
  destruct (Qzero q); [destruct s; split; reflexivity|].
  rewrite (Qneg_nonneg q H).
  destruct (overflows (round q)); [split; reflexivity|].
  destruct (Qzero (round q)); [split; reflexivity|].
  split; [reflexivity|]. apply ltb_zero_false. apply round_nonneg. exact H.
Qed.

Lemma of_Z_nonneg z : 0 <= z -> (0 <= Qval (of_Z z))%Q.
Proof.
  intros H. unfold of_Z. cbn [Qval]. apply round_nonneg.
  change 0%Q with (inject_Z 0). rewrite <- Zle_Qle. exact H.
Qed.

(** A count over a positive count is not negative. *)
Lemma count_over_count c o :
  0 <= c -> 0 < o -> not_negative (of_Z c / of_Z o)%np.
Proof.
  intros Hc Ho.
  assert (Hz : is_zero (of_Z o) = false) by (apply of_Z_nonzero; lia).
  pose proof (of_Z_nonneg c Hc) as Qc.
  pose proof (of_Z_nonneg o ltac:(lia)) as Qo.
  unfold of_Z in *. unfold div. rewrite Hz. cbn [Qval] in *.
  apply mk_not_negative.
  cbn [is_zero] in Hz.
  assert (Hpos : (0 < round (inject_Z o))%Q).
  { apply Qle_lteq in Qo. destruct Qo as [Qo|Qo]; [exact Qo|].
    exfalso. assert (E : Qzero (round (inject_Z o)) = true)
      by (apply Qzero_correct; symmetry; exact Qo).
    congruence. }
  apply Qle_shift_div_l; [exact Hpos|]. rewrite Qmult_0_l. exact Qc.
Qed.

(** A value that is not negative, times a positive finite rate. *)
Lemma mul_not_negative x r :
  not_negative x -> is_finite r = true -> ltb (Fin 0) r = true ->
  not_negative (x * r)%np.
Proof.
  intros [Hn Hx] Fr Hr.
  destruct r as [q| | |]; try discriminate.
  assert (Hq : (0 < q)%Q).
  { unfold ltb in Hr. cbn [Qval] in Hr.
    destruct (Qcompare 0 q) eqn:E; try discriminate.
    apply Qlt_alt. exact E. }
  assert (Hs : Qneg q = false)
    by (apply Qneg_nonneg; apply Qlt_le_weak; exact Hq).
  assert (Hz : Qzero q = false).
  { destruct (Qzero q) eqn:E; [|reflexivity].
    apply Qzero_correct in E. rewrite E in Hq.
    exfalso. exact (Qlt_irrefl 0 Hq). }
  destruct x as [a| |[|]|]; try discriminate.
  - assert (Ha : (0 <= a)%Q).
    { unfold ltb in Hx. cbn [Qval] in Hx.
      destruct (Qcompare a 0) eqn:E; try discriminate.
      - apply Qeq_alt in E. rewrite E. apply Qle_refl.
      - apply Qgt_alt in E. apply Qlt_le_weak. exact E. }
    unfold mul. cbn [Qval]. apply mk_not_negative.
    apply Qmult_le_0_compat; [exact Ha|]. apply Qlt_le_weak. exact Hq.
  - unfold mul. cbn [Qval].
    rewrite (mk_zero_value (0 * q) _ ltac:(apply Qzero_correct; ring)).
    unfold zero_of. destruct (xorb _ _); split; reflexivity.
  - unfold mul. cbn [is_zero signbit]. rewrite Hz, Hs. split; reflexivity.
Qed.

(** X5. With finite edges, values aligned on the samples of the feature
    and a finite positive sampling rate, no cell of the 1-D table is NaN
    or negative. *)
Theorem tuning_curve_cells_not_negative series value_from new_TsGroup
    (group : group_arg series) feature ep nb_bins minmax tc bins :
  compute_1d_tuning_curves series value_from new_TsGroup group feature ep
    nb_bins minmax = Ok tc ->
  edges feature nb_bins minmax = Ok bins ->
  Forall (fun e => is_finite e = true) bins ->
  (forall k s, In (k, s) (as_TsGroup series new_TsGroup group ep) ->
     incl (value_from s feature ep) (values feature)) ->
  is_finite (rate feature) = true ->
  ltb (Fin 0) (rate feature) = true ->
  forall k, In k (keys series (as_TsGroup series new_TsGroup group ep)) ->
    exists col,
      lookup key_eqb k (frame tc) = Some col
      /\ List.length col = Z.to_nat (nb_bins - 1)
      /\ Forall not_negative col.
Proof.
  intros H He Hfin Halign Frate Hrate k Hk.
  destruct (compute_1d_inv _ _ _ _ _ _ _ _ _ H)
    as (bins' & occ & He' & Hm & Hh & Ho & Htc).
  rewrite He in He'. inversion He'; subst bins'. clear He'.
  pose proof (edges_length _ _ _ _ He) as Hlen.
  set (g := as_TsGroup series new_TsGroup group ep) in *.
  set (P := fun (_ : key) (col : list np_float) =>
              List.length col = Z.to_nat (nb_bins - 1)
              /\ Forall not_negative col).
  destruct (fold_1d_lookup P occ bins (rate feature)
              (group_value_from series value_from g feature ep))
    with (df := new_DataFrame (centers bins) (keys series g)) (k := k)
    as [col [Hl Hcol]].
  - intros m Hm'. destruct (in_group_value _ _ _ _ _ _ Hm') as [s0 [Hs0 Hv]].
    split.
    + rewrite column_1d_length, Ho.
      rewrite diffZ_length, cumulative_length. lia.
    + apply Forall_forall. intros c Hc. apply In_nth_error in Hc.
      destruct Hc as [i Hi]. rewrite nth_error_column_1d, Hv in Hi.
      destruct (nth_error (Np.diffZ (Np.cumulative (value_from s0 feature ep)
                                       bins)) i) as [cnt|] eqn:Ec;
        [|discriminate].
      destruct (nth_error occ i) as [o|] eqn:Eo; [|discriminate].
      assert (Hc : c = ((if isnan (of_Z cnt / of_Z o)%np then Fin 0
                         else (of_Z cnt / of_Z o)%np) * rate feature)%np)
        by congruence.
      rewrite Hc. clear Hc Hi.
      pose proof (histogram_nonneg _ _ Hfin Hm _ _ Ec) as Hcnt.
      rewrite Ho in Eo.
      pose proof (histogram_nonneg _ _ Hfin Hm _ _ Eo) as Hocc.
      apply mul_not_negative; [|exact Frate|exact Hrate].
      destruct (Z.eq_dec o 0) as [E0|E0].
      * subst o.
        pose proof (zero_bin (values feature) (value_from s0 feature ep)
                      bins (Halign _ _ Hs0) Hfin Hm i Eo) as Hz.
        assert (Hcnt0 : cnt = 0) by congruence. subst cnt.
        rewrite div_zero_zero. cbn [isnan]. split; reflexivity.
      * pose proof (count_over_count cnt o Hcnt ltac:(lia)) as Hnn.
        rewrite (proj1 Hnn). exact Hnn.
  - left. rewrite group_value_keys. exact Hk.
  - exists col. split; [rewrite Htc; exact Hl|]. exact Hcol.
Qed.

(** ** An epoch without samples *)





Lemma mul_NaN_l x : (NaN * x)%np = NaN.
Proof. reflexivity. Qed.



(** ** Every sample counted *)




(** ** The small session again *)

Lemma short_bounds_witness :
  List.length (channels small_frame) = 2%nat
  /\ 0 <= 3
  /\ (List.length [Fin 0; Fin 1] < 4)%nat
  /\ compute_2d_tuning_curves (list Q) value_from_nearest new_TsGroup_events
       small_group small_frame small_ep 3 (Some [Fin 0; Fin 1])
     = Raise (IndexError "index out of range").
Proof.
  assert (H1 : List.length (channels small_frame) = 2%nat) by reflexivity.
  assert (H2 : 0 <= 3) by lia.
  assert (H3 : (List.length [Fin 0; Fin 1] < 4)%nat) by (simpl; lia).
  split; [exact H1|]. split; [exact H2|]. split; [exact H3|].
  exact (short_bounds_raise_index_error (list Q) value_from_nearest
           new_TsGroup_events small_group small_frame small_ep 3
           [Fin 0; Fin 1] H1 H2 H3).
Defined.

Lemma information_rows_witness :
  compute_mutual_information_1d log2_floor burst_tuning small_feature
    small_ep None true = Ok [(KInt 0, Fin 2)]
  /\ map fst [(KInt 0, Fin 2)] = labels burst_tuning.
Proof.
  assert (H : compute_mutual_information_1d log2_floor burst_tuning
                small_feature small_ep None true = Ok [(KInt 0, Fin 2)])
    by (vm_compute; reflexivity).
  split; [exact H|].
  exact (proj1 (information_rows log2_floor burst_tuning small_feature
                  small_ep None true _ H)).
Defined.

Lemma tuning_curve_cell_2d_witness :
  NoDup (columns small_frame)
  /\ NoDup (keys (list Q)
             (as_TsGroup (list Q) new_TsGroup_events small_group small_ep))
  /\ In (KInt 0, [(1 # 10)%Q; (2 # 10)%Q; (9 # 10)%Q])
       (as_TsGroup (list Q) new_TsGroup_events small_group small_ep)
  /\ exists arr,
       lookup key_eqb (KInt 0) small_arrays = Some arr
       /\ cell2 arr 0 0 = Some (Fin 2 / Fin 1 * frame_rate small_frame)%np.
Proof.
  assert (H : compute_2d_tuning_curves (list Q) value_from_nearest
                new_TsGroup_events small_group small_frame small_ep 3 None
              = Ok (small_arrays, small_centers))
    by (vm_compute; reflexivity).
  assert (Hin : In (KInt 0, [(1 # 10)%Q; (2 # 10)%Q; (9 # 10)%Q])
                  (as_TsGroup (list Q) new_TsGroup_events small_group
                     small_ep))
    by (left; reflexivity).
  split; [exact small_columns_distinct|].
  split; [exact small_keys_distinct|]. split; [exact Hin|].
  destruct (tuning_curve_cell_2d (list Q) value_from_nearest
              new_TsGroup_events small_group small_frame small_ep 3 None
              small_arrays small_centers (KInt 0) _ H small_columns_distinct
              small_keys_distinct Hin)
    as (c0 & c1 & b0 & b1 & occ & count & arr
        & Hc & He0 & He1 & Ho & Hcount & Harr & Hcells).
  inversion Hc; subst c0 c1.
  assert (E0 : channel_edges small_frame 3 None 0 "x" = Ok small_edges)
    by (vm_compute; reflexivity).
  assert (E1 : channel_edges small_frame 3 None 1 "y" = Ok small_edges)
    by (vm_compute; reflexivity).
  rewrite E0 in He0. inversion He0; subst b0.
  rewrite E1 in He1. inversion He1; subst b1.
  assert (Eo : Np.histogram2d (values (channel small_frame "x"))
                 (values (channel small_frame "y")) small_edges small_edges
               = Ok [[Fin 1; Fin 0]; [Fin 0; Fin 1]])
    by (vm_compute; reflexivity).
  rewrite Eo in Ho. inversion Ho; subst occ.
  assert (Ec : Np.histogram2d
                 (value_from_nearest [(1 # 10)%Q; (2 # 10)%Q; (9 # 10)%Q]
                    (channel small_frame "x") small_ep)
                 (value_from_nearest [(1 # 10)%Q; (2 # 10)%Q; (9 # 10)%Q]
                    (channel small_frame "y") small_ep)
                 small_edges small_edges
               = Ok [[Fin 2; Fin 0]; [Fin 0; Fin 1]])
    by (vm_compute; reflexivity).
  rewrite Ec in Hcount. inversion Hcount; subst count.
  exists arr. split; [exact Harr|].
  exact (Hcells 0%nat 0%nat (Fin 2) (Fin 1) Logic.eq_refl Logic.eq_refl).
Defined.

Lemma tuning_curve_cells_witness :
  Forall (fun e => is_finite e = true) small_bins
  /\ is_finite (rate small_feature) = true
  /\ ltb (Fin 0) (rate small_feature) = true
  /\ exists col,
       lookup key_eqb (KInt 3) (frame dict_table) = Some col
       /\ List.length col = 3%nat
       /\ Forall not_negative col.
Proof.
  assert (H1 : compute_1d_tuning_curves (list Q) value_from_nearest
                 new_TsGroup_events small_dict small_feature small_ep 4 None
               = Ok dict_table) by (vm_compute; reflexivity).
  assert (H2 : edges small_feature 4 None = Ok small_bins)
    by (vm_compute; reflexivity).
  assert (H3 : Forall (fun e => is_finite e = true) small_bins)
    by (repeat constructor).
  assert (H4 : is_finite (rate small_feature) = true) by reflexivity.
  assert (H5 : ltb (Fin 0) (rate small_feature) = true) by reflexivity.
  split; [exact H3|]. split; [exact H4|]. split; [exact H5|].
  apply (tuning_curve_cells_not_negative (list Q) value_from_nearest
           new_TsGroup_events small_dict small_feature small_ep 4 None
           dict_table small_bins H1 H2 H3
           (fun k s _ => value_from_nearest_incl s small_feature small_ep)
           H4 H5 (KInt 3)).
  vm_compute. right. left. reflexivity.
Defined.


